(** * Library management: a shallow embedding of [Library.py]

    The program keeps a catalog of books and the books issued to each
    student, reads both from two text files when it starts and writes the
    file concerned back after every change.  This development embeds the
    class [Library] and proves the properties its specification states.

    Modelling choices, each following the source:
    - a Python [str] is a [string]; characters are taken in the ASCII range,
      where [str.strip], [str.upper] and [str.title] are defined below as
      CPython defines them (characters above 127 are treated as neither
      letters nor white space, which is not what Python does with them:
      what is stated of the result of these methods is stated for ASCII
      text, [Str.isascii]);
    - a book is a record with the three keys of the source's dict;
    - [issued_records], a dict from student id to a set of book ids, is a
      [gmap string (gset string)]: equality of maps is equality of Python
      dicts ([==] ignores insertion order).  Where the source enumerates a
      dict or a set (when it writes the file), the model enumerates with
      [map_to_list] and [elements].  Python takes a dict in the order of
      insertion and a set in an order that depends on the run, so the
      model's order is one of those the program may take: where the order
      matters, the statement is made for every enumeration ([enumerates],
      [record_lines]);
    - a file is the text it holds, and [io_error] stands for the failure
      to open it, which the source catches.  A file whose bytes do not
      decode is not a disk of the model: on such a file the source stops
      with an error it does not catch;
    - the methods read the keyboard, print and touch the files: they are
      written in a small state-and-exception monad over a [World], which
      holds the [Library] instance, the disk, the pending input lines and
      the lines printed so far. *)

From Stdlib Require Import NArith Ascii.
From stdpp Require Import base option list strings gmap sets.

Local Open Scope string_scope.

(** ** Python string methods *)

Module Str.

Definition LF : ascii := "010"%char.
Definition CR : ascii := "013"%char.

(** [c.isspace()] on ASCII: tab, line feed, vertical tab, form feed,
    carriage return, the separators 28-31 and the space. *)
Definition isspace (c : ascii) : bool :=
  let n := N_of_ascii c in
  ((9 <=? n) && (n <=? 13) || (28 <=? n) && (n <=? 32))%N.

Definition islower (c : ascii) : bool :=
  let n := N_of_ascii c in ((97 <=? n) && (n <=? 122))%N.

Definition isupper (c : ascii) : bool :=
  let n := N_of_ascii c in ((65 <=? n) && (n <=? 90))%N.

Definition toupper (c : ascii) : ascii :=
  if islower c then ascii_of_N (N_of_ascii c - 32) else c.

Definition tolower (c : ascii) : ascii :=
  if isupper c then ascii_of_N (N_of_ascii c + 32) else c.

Definition is_empty (s : string) : bool :=
  match s with EmptyString => true | String _ _ => false end.

Fixpoint lstrip (s : string) : string :=
  match s with
  | EmptyString => EmptyString
  | String c s' => if isspace c then lstrip s' else s
  end.

Fixpoint rstrip (s : string) : string :=
  match s with
  | EmptyString => EmptyString
  | String c s' =>
      let r := rstrip s' in
      if is_empty r && isspace c then EmptyString else String c r
  end.

(** [s.strip()] *)
Definition strip (s : string) : string := rstrip (lstrip s).

(** [s.upper()] *)
Fixpoint upper (s : string) : string :=
  match s with
  | EmptyString => EmptyString
  | String c s' => String (toupper c) (upper s')
  end.

(** [s.title()]: CPython walks the string remembering whether the previous
    character was cased; a cased character that follows an uncased one
    (or starts the string) is put in upper case, every other cased
    character in lower case. *)
Fixpoint title_from (previous_is_cased : bool) (s : string) : string :=
  match s with
  | EmptyString => EmptyString
  | String c s' =>
      if islower c then
        String (if previous_is_cased then c else toupper c) (title_from true s')
      else if isupper c then
        String (if previous_is_cased then tolower c else c) (title_from true s')
      else String c (title_from false s')
  end.

Definition title (s : string) : string := title_from false s.

(** [s.split(sep)] for a one-character separator: one more piece than
    there are separators, so the empty string gives one empty piece. *)
Fixpoint split (sep : ascii) (s : string) : list string :=
  match s with
  | EmptyString => [EmptyString]
  | String c s' =>
      if Ascii.eqb c sep then EmptyString :: split sep s'
      else match split sep s' with
           | piece :: pieces => String c piece :: pieces
           | [] => [String c EmptyString]
           end
  end.

(** [sep.join(pieces)] *)
Fixpoint join (sep : string) (pieces : list string) : string :=
  match pieces with
  | [] => EmptyString
  | [piece] => piece
  | piece :: pieces' => piece ++ sep ++ join sep pieces'
  end.

(** [for line in f] on a file opened in text mode: the content is cut
    after every line end, each line keeps its end as a line feed, and a
    carriage return, alone or before a line feed, counts as a line end
    (universal newlines).  [cur] is the line read so far. *)
Fixpoint lines_from (cur : string) (content : string) : list string :=
  match content with
  | EmptyString => if is_empty cur then [] else [cur]
  | String c rest =>
      if Ascii.eqb c LF then (cur ++ String LF EmptyString) :: lines_from EmptyString rest
      else if Ascii.eqb c CR then
        match rest with
        | String c' rest' =>
            if Ascii.eqb c' LF
            then (cur ++ String LF EmptyString) :: lines_from EmptyString rest'
            else (cur ++ String LF EmptyString) :: lines_from EmptyString rest
        | EmptyString => [cur ++ String LF EmptyString]
        end
      else lines_from (cur ++ String c EmptyString) rest
  end.

Definition lines (content : string) : list string := lines_from EmptyString content.

(** [s.isascii()]: the text on which the methods above are those of
    Python. *)
Fixpoint isascii (s : string) : bool :=
  match s with
  | EmptyString => true
  | String c s' => (N_of_ascii c <? 128)%N && isascii s'
  end.

End Str.

(** ** Data model *)

(** A catalog entry: the dict [{'id': .., 'title': .., 'author': ..}]. *)
Record Book := { id : string; title : string; author : string }.

(** The attributes of a [Library] instance. *)
Record Library := {
  catalog : list Book;
  available_book_ids : gset string;
  issued_records : gmap string (gset string)
}.

(** The two files.  [io_error] says that [open] raises [IOError]: the
    source catches it around every read and write. *)
Record Disk := {
  files : gmap string string;
  io_error : bool
}.

Definition BOOK_CATALOG_FILE : string := "books.txt".
Definition ISSUED_RECORDS_FILE : string := "issued_books.txt".

(** What the program writes on the screen, one constructor for each [print]
    of the class and one for the prompt of [input]; the arguments are the
    values the source interpolates, and the text of the source is given
    above each constructor. *)
Inductive message :=
  | Prompt (text : string)
  (* Error loading {file}. *)
  | MsgErrorLoading (file : string)
  (* Catalog saved to books.txt. *)
  | MsgCatalogSaved
  (* Error saving catalog: {e} *)
  | MsgErrorSavingCatalog
  (* Issued records saved to issued_books.txt. *)
  | MsgIssuedSaved
  (* Error saving issued records: {e} *)
  | MsgErrorSavingIssued
  (* --- Add New Book --- *)
  | MsgAddHeader
  (* Error: Book ID {book_id} already exists. Use a unique ID. *)
  | MsgDuplicateId (book_id : string)
  (* Book '{title}' by {author} added successfully. *)
  | MsgBookAdded (title author : string)
  (* --- Available Book Catalog --- *)
  | MsgDisplayHeader
  (* The library catalog is empty. *)
  | MsgCatalogEmpty
  (* All books are currently issued. *)
  | MsgAllIssued
  (* Total books available: {n} *)
  | MsgTotalAvailable (n : nat)
  (* {i}. ID: {id} | Title: {title} | Author: {author} *)
  | MsgBookLine (i : nat) (book : Book)
  (* --- Issue Book --- *)
  | MsgIssueHeader
  (* **Error**: Book ID {book_id} does not exist in the catalog. *)
  | MsgBookNotFound (book_id : string)
  (* **Error**: Book ID {book_id} is already issued. *)
  | MsgBookAlreadyIssued (book_id : string)
  (* Book {book_id} successfully issued to Student {student_id}. *)
  | MsgBookIssued (book_id student_id : string)
  (* --- Return Book --- *)
  | MsgReturnHeader
  (* **Error**: Student ID {student_id} has no outstanding issued books. *)
  | MsgStudentHasNoRecords (student_id : string)
  (* Book {book_id} successfully returned by Student {student_id}. *)
  | MsgBookReturned (book_id student_id : string)
  (* **Error**: Book ID {book_id} was not issued to Student {student_id}. *)
  | MsgBookNotIssuedToStudent (book_id student_id : string).

(** The running program: the [Library] instance, the disk, the lines the
    user has still to type and everything printed so far. *)
Record World := {
  self : Library;
  disk : Disk;
  stdin : list string;
  stdout : list message
}.

(** ** The monad of the methods *)

(** [input] raises [EOFError] when the input is exhausted; no method of the
    class catches it. *)
Inductive exception := EOFError.

Inductive outcome (A : Type) :=
  | Returned (a : A)
  | Raised (e : exception).
Arguments Returned {A} a.
Arguments Raised {A} e.

Definition M (A : Type) : Type := World -> outcome A * World.

#[global] Instance M_ret : MRet M := fun A a w => (Returned a, w).

#[global] Instance M_bind : MBind M := fun A B f m w =>
  match m w with
  | (Returned a, w') => f a w'
  | (Raised e, w') => (Raised e, w')
  end.

#[global] Instance M_fmap : FMap M := fun A B f m w =>
  match m w with
  | (Returned a, w') => (Returned (f a), w')
  | (Raised e, w') => (Raised e, w')
  end.

(** The world a computation leaves and what it printed. *)
Definition exec {A} (m : M A) (w : World) : World := (m w).2.
Definition result {A} (m : M A) (w : World) : outcome A := (m w).1.

Definition get_self : M Library := fun w => (Returned (self w), w).

Definition set_self (l : Library) : M unit := fun w =>
  (Returned (), {| self := l; disk := disk w; stdin := stdin w; stdout := stdout w |}).

Definition emit (ms : list message) (w : World) : World :=
  {| self := self w; disk := disk w; stdin := stdin w; stdout := stdout w ++ ms |}.

(** [print(..)] *)
Definition print (m : message) : M unit := fun w => (Returned (), emit [m] w).

(** [input(prompt)]: shows the prompt and takes the next line. *)
Definition input (prompt : string) : M string := fun w =>
  let w' := emit [Prompt prompt] w in
  match stdin w with
  | [] => (Raised EOFError, w')
  | line :: rest =>
      (Returned line,
       {| self := self w'; disk := disk w'; stdin := rest; stdout := stdout w' |})
  end.

(** [os.path.exists(path)] *)
Definition os_path_exists (path : string) : M bool := fun w =>
  (Returned (bool_decide (is_Some (files (disk w) !! path))), w).

(** [open(path, 'r')] and reading it whole: [None] stands for [IOError].
    The content is the text of the file, already decoded. *)
Definition read_text (path : string) : M (option string) := fun w =>
  (Returned (if io_error (disk w) then None else files (disk w) !! path), w).

(** [open(path, 'w')] and writing [content]: [false] stands for [IOError],
    and then the file is left as it was. *)
Definition write_text (path content : string) : M bool := fun w =>
  if io_error (disk w) then (Returned false, w)
  else (Returned true,
        {| self := self w;
           disk := {| files := <[path := content]> (files (disk w));
                     io_error := io_error (disk w) |};
           stdin := stdin w; stdout := stdout w |}).

(** ** Internal file handlers *)

(** One turn of the loop of [_load_catalog]. *)
Definition catalog_line (catalog : list Book) (line : string) : list Book :=
  match Str.split "|" (Str.strip line) with
  | [p0; p1; p2] =>
      catalog ++ [{| id := Str.strip p0; title := Str.strip p1; author := Str.strip p2 |}]
  | _ => catalog
  end.

Definition parse_catalog (content : string) : list Book :=
  fold_left catalog_line (Str.lines content) [].

Definition _load_catalog : M (list Book) :=
  found ← os_path_exists BOOK_CATALOG_FILE;
  if negb found then mret []
  else
    r ← read_text BOOK_CATALOG_FILE;
    match r with
    | Some content => mret (parse_catalog content)
    | None => print (MsgErrorLoading BOOK_CATALOG_FILE) ;; mret []
    end.

Definition catalog_text (catalog : list Book) : string :=
  Str.join "" (map (fun book =>
    id book ++ "|" ++ title book ++ "|" ++ author book ++ String Str.LF "") catalog).

Definition _save_catalog : M unit :=
  self ← get_self;
  ok ← write_text BOOK_CATALOG_FILE (catalog_text (catalog self));
  if ok : bool then print MsgCatalogSaved else print MsgErrorSavingCatalog.

(** One turn of the loop of [_load_issued_records]: the book ids are the
    pieces of [parts[1]] between commas, as they are. *)
Definition issued_line (records : gmap string (gset string)) (line : string)
  : gmap string (gset string) :=
  match Str.split ":" (Str.strip line) with
  | [p0; p1] =>
      let student_id := Str.strip p0 in
      let book_ids : gset string := list_to_set (Str.split "," p1) in
      <[student_id := book_ids]> records
  | _ => records
  end.

Definition parse_issued_records (content : string) : gmap string (gset string) :=
  fold_left issued_line (Str.lines content) ∅.

Definition _load_issued_records : M (gmap string (gset string)) :=
  found ← os_path_exists ISSUED_RECORDS_FILE;
  if negb found then mret ∅
  else
    r ← read_text ISSUED_RECORDS_FILE;
    match r with
    | Some content => mret (parse_issued_records content)
    | None => print (MsgErrorLoading ISSUED_RECORDS_FILE) ;; mret ∅
    end.

(** The text [_save_issued_records] writes: a line for each student of
    [items()], with the ids of the set joined by commas.  The students are
    taken in the order of [map_to_list] and the ids in the order of
    [elements], one of the orders the program may take. *)
Definition issued_records_text (records : gmap string (gset string)) : string :=
  Str.join "" (map (fun '(student_id, book_ids) =>
    student_id ++ ": " ++ Str.join "," (elements (book_ids : gset string)) ++ String Str.LF "")
    (map_to_list records)).

Definition _save_issued_records : M unit :=
  self ← get_self;
  ok ← write_text ISSUED_RECORDS_FILE (issued_records_text (issued_records self));
  if ok : bool then print MsgIssuedSaved else print MsgErrorSavingIssued.

(** [Library.__init__] *)
Definition __init__ : M unit :=
  catalog ← _load_catalog;
  let available_book_ids : gset string := list_to_set (id <$> catalog) in
  issued_records ← _load_issued_records;
  set_self {| catalog := catalog;
              available_book_ids := available_book_ids;
              issued_records := issued_records |}.

(** ** The features *)

Definition set_catalog (c : list Book) (l : Library) : Library :=
  {| catalog := c; available_book_ids := available_book_ids l;
     issued_records := issued_records l |}.

Definition set_available_book_ids (a : gset string) (l : Library) : Library :=
  {| catalog := catalog l; available_book_ids := a;
     issued_records := issued_records l |}.

Definition set_issued_records (r : gmap string (gset string)) (l : Library) : Library :=
  {| catalog := catalog l; available_book_ids := available_book_ids l;
     issued_records := r |}.

(** [d.values()] *)
Definition values (d : gmap string (gset string)) : list (gset string) :=
  (map_to_list d).*2.

(** The [while True] loop of [add_book].  It only reads the keyboard and
    prints: from the ids already taken and the pending lines it gives what
    is printed and, unless the input runs out, the id accepted and the lines
    left. *)
Fixpoint ask_book_id (taken : gset string) (pending : list string)
  : list message * option (string * list string) :=
  let prompt := Prompt "Enter Book ID (e.g., B101): " in
  match pending with
  | [] => ([prompt], None)
  | line :: rest =>
      let book_id := Str.upper (Str.strip line) in
      if decide (book_id ∈ taken) then
        let '(out, r) := ask_book_id taken rest in
        (prompt :: MsgDuplicateId book_id :: out, r)
      else ([prompt], Some (book_id, rest))
  end.

Definition input_book_id : M string := fun w =>
  let '(out, r) := ask_book_id (available_book_ids (self w)) (stdin w) in
  let w' := emit out w in
  match r with
  | None =>
      (Raised EOFError,
       {| self := self w'; disk := disk w'; stdin := []; stdout := stdout w' |})
  | Some (book_id, rest) =>
      (Returned book_id,
       {| self := self w'; disk := disk w'; stdin := rest; stdout := stdout w' |})
  end.

Definition add_book : M unit :=
  print MsgAddHeader ;;
  book_id ← input_book_id;
  title ← Str.title ∘ Str.strip <$> input "Enter Book Title: ";
  author ← Str.title ∘ Str.strip <$> input "Enter Author Name: ";
  let new_book := {| id := book_id; title := title; author := author |} in
  self ← get_self;
  set_self (set_catalog (catalog self ++ [new_book]) self) ;;
  self ← get_self;
  set_self (set_available_book_ids (available_book_ids self ∪ {[book_id]}) self) ;;
  print (MsgBookAdded title author) ;;
  _save_catalog.

(** [enumerate(l, start)] *)
Fixpoint enumerate {A} (l : list A) (start : nat) : list (nat * A) :=
  match l with
  | [] => []
  | x :: l' => (start, x) :: enumerate l' (S start)
  end.

(** [set().union] applied to the sets of a list: the empty set when the
    list is empty. *)
Definition union_all (sets : list (gset string)) : gset string :=
  foldr (∪) ∅ sets.

Definition issued_book_ids (l : Library) : gset string :=
  union_all (values (issued_records l)).

Definition available_books (l : Library) : list Book :=
  List.filter (fun book => bool_decide (id book ∉ issued_book_ids l)) (catalog l).

Fixpoint print_all (ms : list message) : M unit :=
  match ms with
  | [] => mret ()
  | m :: ms' => print m ;; print_all ms'
  end.

Definition display_available_books : M unit :=
  print MsgDisplayHeader ;;
  self ← get_self;
  match catalog self with
  | [] => print MsgCatalogEmpty
  | _ :: _ =>
      let available_books := available_books self in
      match available_books with
      | [] => print MsgAllIssued
      | _ :: _ =>
          print (MsgTotalAvailable (length available_books)) ;;
          print_all (map (fun '(i, book) => MsgBookLine i book)
                         (enumerate available_books 1))
      end
  end.

Definition book_exists (l : Library) (book_id : string) : bool :=
  existsb (fun book => bool_decide (id book = book_id)) (catalog l).

Definition is_issued (l : Library) (book_id : string) : bool :=
  existsb (fun issued_set : gset string => bool_decide (book_id ∈ issued_set))
          (values (issued_records l)).

Definition issue_book : M unit :=
  print MsgIssueHeader ;;
  student_id ← Str.upper ∘ Str.strip <$> input "Enter Student ID: ";
  book_id ← Str.upper ∘ Str.strip <$> input "Enter Book ID to issue: ";
  self ← get_self;
  if negb (book_exists self book_id) then print (MsgBookNotFound book_id)
  else if is_issued self book_id then print (MsgBookAlreadyIssued book_id)
  else
    (if decide (student_id ∉ dom (issued_records self))
     then set_self (set_issued_records (<[student_id := ∅]> (issued_records self)) self)
     else mret ()) ;;
    self ← get_self;
    set_self (set_issued_records
                (alter (fun s => s ∪ {[book_id]}) student_id (issued_records self)) self) ;;
    print (MsgBookIssued book_id student_id) ;;
    _save_issued_records.

Definition return_book : M unit :=
  print MsgReturnHeader ;;
  student_id ← Str.upper ∘ Str.strip <$> input "Enter Student ID: ";
  book_id ← Str.upper ∘ Str.strip <$> input "Enter Book ID to return: ";
  self ← get_self;
  if decide (student_id ∉ dom (issued_records self))
  then print (MsgStudentHasNoRecords student_id)
  else if decide (book_id ∈ issued_records self !!! student_id) then
    set_self (set_issued_records
                (alter (fun s => s ∖ {[book_id]}) student_id (issued_records self)) self) ;;
    self ← get_self;
    (if decide (issued_records self !!! student_id = ∅)
     then set_self (set_issued_records (delete student_id (issued_records self)) self)
     else mret ()) ;;
    print (MsgBookReturned book_id student_id) ;;
    _save_issued_records
  else print (MsgBookNotIssuedToStudent book_id student_id).

(** ** Starting the program *)

(** [library = Library()] in [main]: the instance is built from the disk. *)
Definition empty_library : Library :=
  {| catalog := []; available_book_ids := ∅; issued_records := ∅ |}.

Definition start (d : Disk) (keyboard : list string) : World :=
  exec __init__ {| self := empty_library; disk := d; stdin := keyboard; stdout := [] |}.

Definition empty_disk : Disk := {| files := ∅; io_error := false |}.

(** The states the program goes through: it starts from the files and then
    runs the features in any order, on any input. *)
Inductive reachable : World -> Prop :=
  | reach_start d keyboard : reachable (start d keyboard)
  | reach_add w : reachable w -> reachable (exec add_book w)
  | reach_display w : reachable w -> reachable (exec display_available_books w)
  | reach_issue w : reachable w -> reachable (exec issue_book w)
  | reach_return w : reachable w -> reachable (exec return_book w).

(** ** Notions the statements use *)

(** What a computation prints when run from [w]. *)
Definition said {A} (m : M A) (w : World) : list message :=
  drop (length (stdout w)) (stdout (exec m w)).

(** The lines [display_available_books] prints after its header. *)
Definition listing (l : Library) : list message :=
  match catalog l with
  | [] => [MsgCatalogEmpty]
  | _ :: _ =>
      match available_books l with
      | [] => [MsgAllIssued]
      | _ :: _ =>
          MsgTotalAvailable (length (available_books l))
          :: map (fun '(i, book) => MsgBookLine i book) (enumerate (available_books l) 1)
      end
  end.

(** Some student holds the book. *)
Definition held (records : gmap string (gset string)) (book_id : string) : Prop :=
  exists s (X : gset string), records !! s = Some X /\ book_id ∈ X.

(** A book id is in at most one student's set. *)
Definition single_holder (records : gmap string (gset string)) : Prop :=
  forall s1 s2 (X1 X2 : gset string) b,
    records !! s1 = Some X1 -> records !! s2 = Some X2 ->
    b ∈ X1 -> b ∈ X2 -> s1 = s2.

(** A student has an entry only while the set is not empty. *)
Definition no_empty_entry (records : gmap string (gset string)) : Prop :=
  forall s (X : gset string), records !! s = Some X -> X ≠ ∅.

(** Writing both files, as the features do between them, and the library a
    new run of the program then builds from the disk. *)
Definition save_all : M unit := _save_catalog ;; _save_issued_records.

Definition reload (l : Library) : Library :=
  self (start (disk (exec save_all
                       {| self := l; disk := empty_disk; stdin := []; stdout := [] |})) []).

(** [c not in s] *)
Fixpoint free_of (c : ascii) (s : string) : bool :=
  match s with
  | EmptyString => true
  | String x s' => negb (Ascii.eqb x c) && free_of c s'
  end.

(** A field the catalog file can carry: trimmed, on one line, without the
    separator. *)
Definition catalog_field (s : string) : Prop :=
  Str.strip s = s /\ free_of "|" s = true /\
  free_of Str.LF s = true /\ free_of Str.CR s = true.

Definition catalog_book (book : Book) : Prop :=
  catalog_field (id book) /\ catalog_field (title book) /\ catalog_field (author book).

(** An id the issued-records file can carry: trimmed, on one line, without
    the two separators. *)
Definition record_id (s : string) : Prop :=
  Str.strip s = s /\ free_of ":" s = true /\ free_of "," s = true /\
  free_of Str.LF s = true /\ free_of Str.CR s = true.

(** ** Each word capitalized *)










(** ** The main program *)

(** What [main] itself prints, next to what the library prints. *)
Inductive screen_line :=
  | Shown (m : message)
  (* --- Welcome to the Library Management System --- *)
  | MainWelcome
  (* --- Main Menu --- *)
  | MainMenuHeader
  (* 1. Add Book *)
  | MainMenuAddBook
  (* 2. Issue Book (Borrow) *)
  | MainMenuIssueBook
  (* 3. Return Book *)
  | MainMenuReturnBook
  (* 4. Display Available Books *)
  | MainMenuDisplay
  (* 5. Exit *)
  | MainMenuExit
  (* Exiting Library Management System. Have a great day! *)
  | MainExiting
  (* Invalid choice. Please enter a number between 1 and 5. *)
  | MainInvalidChoice.

(** [main] at work: the world of the library and the whole screen, in the
    order of printing. *)
Record Session := {
  world : World;
  screen : list screen_line
}.

(** Running a computation of the library from [main]: what it prints goes
    to the screen. *)
Definition call {A} (m : M A) (s : Session) : outcome A * Session :=
  (result m (world s),
   {| world := exec m (world s);
      screen := screen s ++ (Shown <$> said m (world s)) |}).

Definition show (lines : list screen_line) (s : Session) : Session :=
  {| world := world s; screen := screen s ++ lines |}.

Definition menu : list screen_line :=
  [MainMenuHeader; MainMenuAddBook; MainMenuIssueBook; MainMenuReturnBook;
   MainMenuDisplay; MainMenuExit].

(** The [while True] loop of [main].  [fuel] bounds the number of turns;
    [None] says that the bound was reached ([main_loop_ends] shows that
    one turn per pending line, and one more, is always enough). *)
Fixpoint main_loop (fuel : nat) (s : Session) : option (outcome unit * Session) :=
  match fuel with
  | 0 => None
  | S fuel' =>
      let again (rs : outcome unit * Session) :=
        match rs with
        | (Returned _, s') => main_loop fuel' s'
        | (Raised e, s') => Some (Raised e, s')
        end in
      match call (input "Enter your choice (1-5): ") (show menu s) with
      | (Raised e, s') => Some (Raised e, s')
      | (Returned line, s') =>
          let choice := Str.strip line in
          if decide (choice = "1") then again (call add_book s')
          else if decide (choice = "2") then again (call issue_book s')
          else if decide (choice = "3") then again (call return_book s')
          else if decide (choice = "4") then again (call display_available_books s')
          else if decide (choice = "5") then Some (Returned (), show [MainExiting] s')
          else main_loop fuel' (show [MainInvalidChoice] s')
      end
  end.

(** The session after [library = Library()]. *)
Definition main_start (d : Disk) (keyboard : list string) : Session :=
  (call __init__
     {| world := {| self := empty_library; disk := d; stdin := keyboard; stdout := [] |};
        screen := [MainWelcome] |}).2.

Definition main (d : Disk) (keyboard : list string) : option (outcome unit * Session) :=
  main_loop (S (length keyboard)) (main_start d keyboard).

(** ** More notions the statements use *)

(** [s.count(c)] *)
Fixpoint count_char (c : ascii) (s : string) : nat :=
  match s with
  | EmptyString => 0
  | String x s' => (if Ascii.eqb x c then 1 else 0) + count_char c s'
  end.

(** No field of the book has the separator of the catalog file. *)
Definition pipe_free (book : Book) : bool :=
  free_of "|" (id book) && free_of "|" (title book) && free_of "|" (author book).

(** Trimmed and on one line. *)
Definition line_field (s : string) : Prop :=
  Str.strip s = s /\ free_of Str.LF s = true /\ free_of Str.CR s = true.

Definition line_book (book : Book) : Prop :=
  line_field (id book) /\ line_field (title book) /\ line_field (author book).

(** The ids [_load_issued_records] reads from a line on which
    [_save_issued_records] wrote [ids]: the first one keeps the blank
    written after the colon. *)
Definition read_back (ids : list string) : list string :=
  match ids with
  | [] => [EmptyString]
  | first :: others => String " " first :: others
  end.

(** [_save_issued_records] writes the students in the order of
    [self.issued_records.items()] and the ids of each in the order in which
    Python walks the set.  Neither order is a function of the records (the
    first is the order of insertion, the second depends on the hashes of the
    run), so what is said of the file below is said for every enumeration:
    [entries] lists every student once, each with the ids of the set, every
    id once, in some order. *)
Definition enumerates (entries : list (string * list string))
    (records : gmap string (gset string)) : Prop :=
  NoDup entries.*1 /\
  Forall (fun entry => NoDup entry.2) entries /\
  forall s (X : gset string),
    records !! s = Some X <-> exists ids, (s, ids) ∈ entries /\ list_to_set ids = X.

(** The text of the file for an enumeration. *)
Definition record_lines (entries : list (string * list string)) : string :=
  Str.join "" (map (fun '(student_id, book_ids) =>
    student_id ++ ": " ++ Str.join "," book_ids ++ String Str.LF "") entries).

(** What [_load_issued_records] makes of these lines. *)
Definition records_read_back (entries : list (string * list string))
  : gmap string (gset string) :=
  list_to_map ((fun entry => (entry.1, list_to_set (read_back entry.2))) <$> entries).

(** [available_book_ids] holds the ids of the catalog. *)
Definition mirrors (l : Library) : Prop :=
  available_book_ids l = list_to_set (id <$> catalog l).

(** Every issued book is a book of the catalog. *)
Definition issued_in_catalog (l : Library) : Prop :=
  forall b, held (issued_records l) b -> b ∈ (id <$> catalog l).

(** The worlds that follow a world when features are run, in any order and
    on any input. *)
Inductive follows (w : World) : World -> Prop :=
  | follows_refl : follows w w
  | follows_add w' : follows w w' -> follows w (exec add_book w')
  | follows_display w' : follows w w' -> follows w (exec display_available_books w')
  | follows_issue w' : follows w w' -> follows w (exec issue_book w')
  | follows_return w' : follows w w' -> follows w (exec return_book w').

(** * Proofs *)

Local Open Scope list_scope.

Arguments Str.strip : simpl never.
Arguments Str.upper : simpl never.
Arguments Str.title : simpl never.
Arguments book_exists : simpl never.
Arguments is_issued : simpl never.
Arguments available_books : simpl never.
Arguments issued_records_text : simpl never.
Arguments catalog_text : simpl never.
Arguments parse_catalog : simpl never.
Arguments parse_issued_records : simpl never.
Arguments print_all : simpl never.

(** Unfolds the monad so that [cbn] runs a method on a given world. *)
Ltac unfold_M :=
  unfold mbind, M_bind, fmap, M_fmap, mret, M_ret, print, input, get_self,
    set_self, emit, write_text, read_text, os_path_exists in *.

Section Containers.

Implicit Types (records : gmap string (gset string)) (X : gset string).

Lemma elem_of_values records X :
  X ∈ values records <-> exists s, records !! s = Some X.
Proof.
  unfold values. rewrite list_elem_of_fmap. split.
  - intros [[s Y] [-> H]]. exists s. by apply elem_of_map_to_list in H.
  - intros [s H]. exists (s, X). split; [done|]. by apply elem_of_map_to_list.
Qed.

Lemma elem_of_union_all b (sets : list (gset string)) :
  b ∈ union_all sets <-> exists X, X ∈ sets /\ b ∈ X.
Proof.
  unfold union_all. induction sets as [|Y sets IH]; simpl.
  - split; [set_solver|]. intros [X [H _]]. by apply elem_of_nil in H.
  - rewrite elem_of_union, IH. split.
    + intros [H|[X [H1 H2]]].
      * exists Y. split; [left|done].
      * exists X. split; [by right|done].
    + intros [X [H1 H2]]. apply elem_of_cons in H1 as [->|H1]; [by left|].
      right. by exists X.
Qed.

Lemma elem_of_issued_book_ids l b :
  b ∈ issued_book_ids l <-> held (issued_records l) b.
Proof.
  unfold issued_book_ids, held. rewrite elem_of_union_all. split.
  - intros [X [H1 H2]]. apply elem_of_values in H1 as [s H1]. by exists s, X.
  - intros [s [X [H1 H2]]]. exists X. split; [|done].
    apply elem_of_values. by exists s.
Qed.

Lemma is_issued_true l b :
  is_issued l b = true <-> held (issued_records l) b.
Proof.
  unfold is_issued, held. rewrite existsb_exists. split.
  - intros [X [H1 H2]]. apply list_elem_of_In, elem_of_values in H1 as [s H1].
    apply bool_decide_eq_true in H2. by exists s, X.
  - intros [s [X [H1 H2]]]. exists X. split.
    + apply list_elem_of_In, elem_of_values. by exists s.
    + by apply bool_decide_eq_true.
Qed.

Lemma is_issued_false l b :
  is_issued l b = false <-> ~ held (issued_records l) b.
Proof. rewrite <- is_issued_true. by destruct (is_issued l b). Qed.

Lemma book_exists_true l b :
  book_exists l b = true <-> exists book, book ∈ catalog l /\ id book = b.
Proof.
  unfold book_exists. rewrite existsb_exists. split.
  - intros [book [H1 H2]]. exists book. split; [by apply list_elem_of_In|].
    by apply bool_decide_eq_true in H2.
  - intros [book [H1 H2]]. exists book. split; [by apply list_elem_of_In|].
    by apply bool_decide_eq_true.
Qed.

End Containers.

(** Brings the printed lines to one list. *)
Ltac norm_out := repeat (rewrite <- app_assoc; cbn).

Section Runs.

Implicit Types (l : Library) (d : Disk) (out : list message)
  (records : gmap string (gset string)) (X : gset string).

Lemma said_app {A} (m : M A) w ms :
  stdout (exec m w) = (stdout w ++ ms)%list -> said m w = ms.
Proof. unfold said. intros ->. by rewrite drop_app_length. Qed.

(** The dict after the two statements of [issue_book] that change it. *)
Lemma issue_records_eq records s b :
  alter (fun X => X ∪ {[b]}) s
    (if decide (s ∉ dom records) then <[s := ∅]> records else records)
  = <[s := default ∅ (records !! s) ∪ {[b]}]> records.
Proof.
  destruct (decide (s ∉ dom records)) as [Hs|Hs].
  - apply not_elem_of_dom in Hs. rewrite Hs. simpl.
    by rewrite alter_insert_eq.
  - apply dec_stable in Hs. apply elem_of_dom in Hs as [X HX]. rewrite HX. simpl.
    apply map_eq. intros k. destruct (decide (k = s)) as [->|Hk].
    + by rewrite lookup_alter_eq, lookup_insert_eq, HX.
    + by rewrite lookup_alter_ne, lookup_insert_ne.
Qed.

(** The dict after the statements of [return_book] that change it. *)
Lemma return_records_eq records s b X :
  records !! s = Some X ->
  (let records' := alter (fun X => X ∖ {[b]}) s records in
   if decide (records' !!! s = ∅) then delete s records' else records')
  = if decide (X ∖ {[b]} = ∅) then delete s records else <[s := X ∖ {[b]}]> records.
Proof.
  intros HX. cbn zeta.
  assert (Hl : alter (fun X => X ∖ {[b]}) s records !!! s = X ∖ {[b]}).
  { unfold lookup_total, map_lookup_total. by rewrite lookup_alter_eq, HX. }
  rewrite Hl. destruct (decide (X ∖ {[b]} = ∅)).
  - apply map_eq. intros k. destruct (decide (k = s)) as [->|Hk].
    + by rewrite !lookup_delete_eq.
    + by rewrite !lookup_delete_ne, lookup_alter_ne.
  - apply map_eq. intros k. destruct (decide (k = s)) as [->|Hk].
    + by rewrite lookup_alter_eq, lookup_insert_eq, HX.
    + by rewrite lookup_alter_ne, lookup_insert_ne.
Qed.

Lemma issue_book_run l d out rs rb rest :
  let s := Str.upper (Str.strip rs) in
  let b := Str.upper (Str.strip rb) in
  let shown := (out ++ [MsgIssueHeader; Prompt "Enter Student ID: ";
                        Prompt "Enter Book ID to issue: "])%list in
  issue_book (Build_World l d (rs :: rb :: rest) out) =
  (Returned (),
   if negb (book_exists l b) then Build_World l d rest (shown ++ [MsgBookNotFound b])
   else if is_issued l b then Build_World l d rest (shown ++ [MsgBookAlreadyIssued b])
   else
     let l' := set_issued_records
                 (<[s := default ∅ (issued_records l !! s) ∪ {[b]}]> (issued_records l)) l in
     if io_error d
     then Build_World l' d rest (shown ++ [MsgBookIssued b s; MsgErrorSavingIssued])
     else Build_World l'
            {| files := <[ISSUED_RECORDS_FILE := issued_records_text (issued_records l')]>
                          (files d);
               io_error := io_error d |}
            rest (shown ++ [MsgBookIssued b s; MsgIssuedSaved])).
Proof.
  intros s b shown. subst shown. unfold issue_book. unfold_M. cbn.
  fold s b.
  destruct (book_exists l b); cbn; [|by norm_out].
  destruct (is_issued l b); cbn; [by norm_out|].
  rewrite <- (issue_records_eq (issued_records l) s b).
  unfold _save_issued_records. unfold_M.
  destruct (decide (s ∉ dom (issued_records l))); cbn;
    destruct (io_error d); cbn; by norm_out.
Qed.

Lemma return_book_run l d out rs rb rest :
  let s := Str.upper (Str.strip rs) in
  let b := Str.upper (Str.strip rb) in
  let shown := (out ++ [MsgReturnHeader; Prompt "Enter Student ID: ";
                        Prompt "Enter Book ID to return: "])%list in
  return_book (Build_World l d (rs :: rb :: rest) out) =
  (Returned (),
   match issued_records l !! s with
   | None => Build_World l d rest (shown ++ [MsgStudentHasNoRecords s])
   | Some X =>
       if decide (b ∈ X) then
         let l' := set_issued_records
                     (if decide (X ∖ {[b]} = ∅) then delete s (issued_records l)
                      else <[s := X ∖ {[b]}]> (issued_records l)) l in
         if io_error d
         then Build_World l' d rest (shown ++ [MsgBookReturned b s; MsgErrorSavingIssued])
         else Build_World l'
                {| files := <[ISSUED_RECORDS_FILE := issued_records_text (issued_records l')]>
                              (files d);
                   io_error := io_error d |}
                rest (shown ++ [MsgBookReturned b s; MsgIssuedSaved])
       else Build_World l d rest (shown ++ [MsgBookNotIssuedToStudent b s])
   end).
Proof.
  intros s b shown. subst shown. unfold return_book. unfold_M. cbn.
  fold s b.
  destruct (issued_records l !! s) as [X|] eqn:HX.
  - destruct (decide (s ∉ dom (issued_records l))) as [Hs|_].
    { apply not_elem_of_dom in Hs. congruence. }
    assert (Hl : issued_records l !!! s = X).
    { unfold lookup_total, map_lookup_total. by rewrite HX. }
    rewrite Hl. destruct (decide (b ∈ X)); cbn; [|by norm_out].
    rewrite <- (return_records_eq (issued_records l) s b X HX). cbn zeta.
    unfold _save_issued_records. unfold_M.
    destruct (decide (alter _ s (issued_records l) !!! s = ∅)); cbn;
      destruct (io_error d); cbn; by norm_out.
  - destruct (decide (s ∉ dom (issued_records l))) as [_|Hs]; [by norm_out|].
    exfalso. apply Hs. by apply not_elem_of_dom.
Qed.

Lemma print_all_run ms w : print_all ms w = (Returned (), emit ms w).
Proof.
  revert w. induction ms as [|m ms IH]; intros [l d kb out]; unfold print_all.
  - unfold_M. cbn. by rewrite app_nil_r.
  - fold print_all. unfold_M. cbn. rewrite IH. unfold emit. cbn. by norm_out.
Qed.

Lemma display_run l d kb out :
  display_available_books (Build_World l d kb out) =
  (Returned (), Build_World l d kb (out ++ MsgDisplayHeader :: listing l)).
Proof.
  unfold display_available_books, listing. unfold_M. cbn.
  destruct (catalog l) as [|book0 c]; cbn; [by norm_out|].
  destruct (available_books l) as [|book1 av]; cbn; [by norm_out|].
  rewrite print_all_run. unfold emit. cbn. by norm_out.
Qed.

Lemma add_book_run l d out kb :
  add_book (Build_World l d kb out) =
  let '(msgs, r) := ask_book_id (available_book_ids l) kb in
  let shown := (out ++ MsgAddHeader :: msgs)%list in
  match r with
  | None => (Raised EOFError, Build_World l d [] shown)
  | Some (book_id, []) =>
      (Raised EOFError, Build_World l d [] (shown ++ [Prompt "Enter Book Title: "]))
  | Some (book_id, [rt]) =>
      (Raised EOFError,
       Build_World l d [] (shown ++ [Prompt "Enter Book Title: ";
                                     Prompt "Enter Author Name: "]))
  | Some (book_id, rt :: ra :: rest) =>
      let t := Str.title (Str.strip rt) in
      let a := Str.title (Str.strip ra) in
      let l' := {| catalog := catalog l ++ [{| id := book_id; title := t; author := a |}];
                   available_book_ids := available_book_ids l ∪ {[book_id]};
                   issued_records := issued_records l |} in
      (Returned (),
       if io_error d
       then Build_World l' d rest
              (shown ++ [Prompt "Enter Book Title: "; Prompt "Enter Author Name: ";
                         MsgBookAdded t a; MsgErrorSavingCatalog])
       else Build_World l'
              {| files := <[BOOK_CATALOG_FILE := catalog_text (catalog l')]> (files d);
                 io_error := io_error d |}
              rest
              (shown ++ [Prompt "Enter Book Title: "; Prompt "Enter Author Name: ";
                         MsgBookAdded t a; MsgCatalogSaved]))
  end.
Proof.
  unfold add_book, input_book_id. unfold_M. cbn.
  destruct (ask_book_id (available_book_ids l) kb) as [msgs [[book_id pending]|]]; cbn;
    [|by norm_out].
  destruct pending as [|rt [|ra rest]]; cbn; [by norm_out..|].
  unfold _save_catalog. unfold_M. cbn.
  destruct (io_error d); cbn; by norm_out.
Qed.

End Runs.

(** ** What each feature does to the library, on any input *)

Section Effects.

Implicit Types (l : Library) (w : World) (records : gmap string (gset string))
  (X : gset string).

Lemma ask_book_id_fresh taken pending msgs book_id rest :
  ask_book_id taken pending = (msgs, Some (book_id, rest)) -> book_id ∉ taken.
Proof.
  revert msgs. induction pending as [|line pending IH]; intros msgs; simpl; [done|].
  destruct (decide (Str.upper (Str.strip line) ∈ taken)) as [Hin|Hout].
  - destruct (ask_book_id taken pending) as [msgs' r] eqn:E.
    intros [= <- ->]. by eapply IH.
  - by intros [= <- <- <-].
Qed.

Lemma add_book_self w :
  self (exec add_book w) = self w \/
  exists book,
    (id book ∉ available_book_ids (self w)) /\
    self (exec add_book w) =
      {| catalog := catalog (self w) ++ [book];
         available_book_ids := available_book_ids (self w) ∪ {[id book]};
         issued_records := issued_records (self w) |}.
Proof.
  destruct w as [l d kb out]. unfold exec. rewrite add_book_run. cbn.
  destruct (ask_book_id (available_book_ids l) kb) as [msgs [[book_id pending]|]] eqn:E;
    [|by left].
  destruct pending as [|rt [|ra rest]]; [by left..|].
  right. eexists {| id := book_id |}. split.
  - cbn. by eapply ask_book_id_fresh.
  - cbn. by destruct (io_error d).
Qed.

Lemma display_self w : self (exec display_available_books w) = self w.
Proof. destruct w as [l d kb out]. unfold exec. by rewrite display_run. Qed.

Lemma issue_book_self w :
  self (exec issue_book w) = self w \/
  exists s b,
    book_exists (self w) b = true /\ is_issued (self w) b = false /\
    self (exec issue_book w) =
      set_issued_records
        (<[s := default ∅ (issued_records (self w) !! s) ∪ {[b]}]>
           (issued_records (self w))) (self w).
Proof.
  destruct w as [l d [|rs [|rb rest]] out]; [by left..|].
  unfold exec. rewrite issue_book_run. cbn.
  destruct (book_exists l _) eqn:Hex; cbn; [|by left].
  destruct (is_issued l _) eqn:His; cbn; [by left|].
  right. eexists _, _. split; [exact Hex|]. split; [exact His|].
  by destruct (io_error d).
Qed.

Lemma return_book_self w :
  self (exec return_book w) = self w \/
  exists s b X,
    issued_records (self w) !! s = Some X /\ b ∈ X /\
    self (exec return_book w) =
      set_issued_records
        (if decide (X ∖ {[b]} = ∅) then delete s (issued_records (self w))
         else <[s := X ∖ {[b]}]> (issued_records (self w))) (self w).
Proof.
  destruct w as [l d [|rs [|rb rest]] out]; [by left..|].
  unfold exec. rewrite return_book_run. cbn.
  destruct (issued_records l !! _) as [X|] eqn:HX; [|by left].
  destruct (decide (_ ∈ X)) as [Hb|Hb]; [|by left].
  right. eexists _, _, X. split; [exact HX|]. split; [exact Hb|].
  by destruct (io_error d).
Qed.

End Effects.

(** ** The invariants hold along every run *)

Section Invariants.

Implicit Types (l : Library) (w : World) (records : gmap string (gset string))
  (X : gset string).

Lemma single_holder_issue records s b :
  single_holder records -> ~ held records b ->
  single_holder (<[s := default ∅ (records !! s) ∪ {[b]}]> records).
Proof.
  intros Hinv Hfree s1 s2 X1 X2 b'.
  destruct (decide (s1 = s)) as [->|H1], (decide (s2 = s)) as [->|H2]; [done|..].
  - rewrite lookup_insert_eq, lookup_insert_ne by done.
    intros [= <-] H2' Hb1 Hb2. apply elem_of_union in Hb1 as [Hb1|Hb1].
    + destruct (records !! s) as [X|] eqn:HX; cbn in Hb1; [|set_solver].
      by apply (Hinv s s2 X X2 b').
    + apply elem_of_singleton in Hb1 as ->. destruct Hfree. by exists s2, X2.
  - rewrite lookup_insert_eq, lookup_insert_ne by done.
    intros H1' [= <-] Hb1 Hb2. apply elem_of_union in Hb2 as [Hb2|Hb2].
    + destruct (records !! s) as [X|] eqn:HX; cbn in Hb2; [|set_solver].
      by apply (Hinv s1 s X1 X b').
    + apply elem_of_singleton in Hb2 as ->. destruct Hfree. by exists s1, X1.
  - rewrite !lookup_insert_ne by done. apply Hinv.
Qed.

Lemma single_holder_return records s b X :
  single_holder records -> records !! s = Some X ->
  single_holder (if decide (X ∖ {[b]} = ∅) then delete s records
                 else <[s := X ∖ {[b]}]> records).
Proof.
  intros Hinv HX. destruct (decide (X ∖ {[b]} = ∅)) as [_|_].
  - intros s1 s2 X1 X2 b' H1 H2.
    apply lookup_delete_Some in H1 as [_ H1]. apply lookup_delete_Some in H2 as [_ H2].
    by apply (Hinv s1 s2 X1 X2 b').
  - intros s1 s2 X1 X2 b'.
    destruct (decide (s1 = s)) as [->|H1], (decide (s2 = s)) as [->|H2]; [done|..].
    + rewrite lookup_insert_eq, lookup_insert_ne by done.
      intros [= <-] H2' Hb1 Hb2. apply elem_of_difference in Hb1 as [Hb1 _].
      by apply (Hinv s s2 X X2 b').
    + rewrite lookup_insert_eq, lookup_insert_ne by done.
      intros H1' [= <-] Hb1 Hb2. apply elem_of_difference in Hb2 as [Hb2 _].
      by apply (Hinv s1 s X1 X b').
    + rewrite !lookup_insert_ne by done. apply Hinv.
Qed.

Lemma no_empty_entry_issue records s b :
  no_empty_entry records ->
  no_empty_entry (<[s := default ∅ (records !! s) ∪ {[b]}]> records).
Proof.
  intros Hinv s' X'. destruct (decide (s' = s)) as [->|Hs].
  - rewrite lookup_insert_eq. intros [= <-]. set_solver.
  - rewrite lookup_insert_ne by done. apply Hinv.
Qed.

Lemma no_empty_entry_return records s b X :
  no_empty_entry records ->
  no_empty_entry (if decide (X ∖ {[b]} = ∅) then delete s records
                  else <[s := X ∖ {[b]}]> records).
Proof.
  intros Hinv. destruct (decide (X ∖ {[b]} = ∅)) as [_|Hne].
  - intros s' X' H. apply lookup_delete_Some in H as [_ H]. by eapply Hinv.
  - intros s' X'. destruct (decide (s' = s)) as [->|Hs].
    + rewrite lookup_insert_eq. by intros [= <-].
    + rewrite lookup_insert_ne by done. apply Hinv.
Qed.

(** [split] always gives at least one piece. *)
Lemma split_cons sep s : exists piece pieces, Str.split sep s = piece :: pieces.
Proof.
  induction s as [|c s [piece [pieces IH]]]; simpl; [by eexists _, _|].
  destruct (Ascii.eqb c sep); [by eexists _, _|]. rewrite IH. by eexists _, _.
Qed.

Lemma no_empty_entry_issued_line records line :
  no_empty_entry records -> no_empty_entry (issued_line records line).
Proof.
  intros Hinv. unfold issued_line.
  destruct (Str.split ":" (Str.strip line)) as [|p0 [|p1 [|p2 ps]]]; try done.
  intros s X. destruct (decide (s = Str.strip p0)) as [->|Hs].
  - rewrite lookup_insert_eq. intros [= <-].
    destruct (split_cons "," p1) as [piece [pieces ->]]. cbn. set_solver.
  - rewrite lookup_insert_ne by done. apply Hinv.
Qed.

Lemma no_empty_entry_parse content : no_empty_entry (parse_issued_records content).
Proof.
  unfold parse_issued_records.
  assert (H : forall lines records, no_empty_entry records ->
                no_empty_entry (fold_left issued_line lines records)).
  { induction lines as [|line lines IH]; intros records Hr; [done|].
    cbn. by apply IH, no_empty_entry_issued_line. }
  apply H. intros s X. by rewrite lookup_empty.
Qed.

(** The library [__init__] builds from the disk. *)
Lemma start_self d keyboard :
  self (start d keyboard) =
  let catalog :=
    match files d !! BOOK_CATALOG_FILE with
    | Some content => if io_error d then [] else parse_catalog content
    | None => []
    end in
  {| catalog := catalog;
     available_book_ids := list_to_set (id <$> catalog);
     issued_records :=
       match files d !! ISSUED_RECORDS_FILE with
       | Some content => if io_error d then ∅ else parse_issued_records content
       | None => ∅
       end |}.
Proof.
  unfold start, exec, __init__, _load_catalog, _load_issued_records. unfold_M. cbn.
  destruct (files d !! BOOK_CATALOG_FILE) as [c|] eqn:Hc;
    destruct (files d !! ISSUED_RECORDS_FILE) as [r|] eqn:Hr;
    destruct (io_error d) eqn:Hio; cbn;
    repeat (rewrite ?Hc, ?Hr, ?Hio; cbn); done.
Qed.

(** X21.  In every state of the program a student has an entry only while
    the set of the entry is not empty: a line of the file always gives at
    least one id, [issue_book] only adds, and [return_book] deletes the
    entry it empties. *)
Theorem reachable_no_empty_entry w :
  reachable w -> no_empty_entry (issued_records (self w)).
Proof.
  induction 1 as [d kb|w _ IH|w _ IH|w _ IH|w _ IH].
  - rewrite start_self. cbn.
    destruct (files d !! ISSUED_RECORDS_FILE) as [content|];
      [destruct (io_error d)|]; try apply no_empty_entry_parse;
      intros s X; by rewrite lookup_empty.
  - destruct (add_book_self w) as [->|[book [_ ->]]]; done.
  - by rewrite display_self.
  - destruct (issue_book_self w) as [->|[s [b [_ [_ ->]]]]]; [done|].
    by apply no_empty_entry_issue.
  - destruct (return_book_self w) as [->|[s [b [X [_ [_ ->]]]]]]; [done|].
    by apply no_empty_entry_return.
Qed.

End Invariants.

(** ** The files: what is read back from what was written *)

Section Persistence.

Implicit Types (s t : string) (c : ascii).

Lemma lstrip_length s : String.length (Str.lstrip s) <= String.length s.
Proof.
  induction s as [|c s IH]; cbn; [done|]. destruct (Str.isspace c); cbn; lia.
Qed.

Lemma lstrip_fixed s : String.length (Str.lstrip s) = String.length s -> Str.lstrip s = s.
Proof.
  destruct s as [|c s]; cbn; [done|]. destruct (Str.isspace c); [|done].
  pose proof (lstrip_length s). lia.
Qed.

Lemma rstrip_length s : String.length (Str.rstrip s) <= String.length s.
Proof.
  induction s as [|c s IH]; cbn; [done|].
  destruct (Str.is_empty (Str.rstrip s) && Str.isspace c); cbn; lia.
Qed.

Lemma rstrip_fixed s : String.length (Str.rstrip s) = String.length s -> Str.rstrip s = s.
Proof.
  induction s as [|c s IH]; cbn; [done|].
  destruct (Str.is_empty (Str.rstrip s) && Str.isspace c); cbn; [done|].
  intros H. f_equal. apply IH. lia.
Qed.

(** A trimmed string has no white space at either end. *)
Lemma strip_fixed s : Str.strip s = s -> Str.lstrip s = s /\ Str.rstrip s = s.
Proof.
  unfold Str.strip. intros H.
  pose proof (lstrip_length s) as Hl. pose proof (rstrip_length (Str.lstrip s)) as Hr.
  rewrite H in Hr.
  assert (El : Str.lstrip s = s) by (apply lstrip_fixed; lia).
  split; [done|]. by rewrite El in H.
Qed.

Lemma append_nil_l t : ("" ++ t)%string = t.
Proof. reflexivity. Qed.

Lemma append_cons c s t : (String c s ++ t)%string = String c (s ++ t)%string.
Proof. reflexivity. Qed.

Lemma rstrip_app s t :
  Str.rstrip (s ++ t)%string =
  if Str.is_empty (Str.rstrip t) then Str.rstrip s else (s ++ Str.rstrip t)%string.
Proof.
  induction s as [|c s IH].
  - rewrite !append_nil_l. by destruct (Str.rstrip t).
  - rewrite append_cons. cbn. rewrite IH.
    destruct (Str.rstrip t) as [|c' t'] eqn:Et; cbn; [done|].
    rewrite append_cons. by destruct s.
Qed.

Lemma lstrip_app s t :
  Str.lstrip s = s -> s ≠ EmptyString -> Str.lstrip (s ++ t)%string = (s ++ t)%string.
Proof.
  destruct s as [|c s]; [done|]. rewrite append_cons. cbn. intros H _.
  destruct (Str.isspace c); [|done].
  pose proof (lstrip_length s) as Hl. rewrite H in Hl. cbn in Hl. lia.
Qed.

Lemma append_nil_r s : (s ++ "")%string = s.
Proof. induction s as [|c s IH]; [done|]. by rewrite append_cons, IH. Qed.

Lemma append_assoc s t u : ((s ++ t) ++ u)%string = (s ++ t ++ u)%string.
Proof.
  induction s as [|c s IH]; [by rewrite !append_nil_l|]. by rewrite !append_cons, IH.
Qed.

Lemma free_of_app c s t : free_of c (s ++ t)%string = free_of c s && free_of c t.
Proof.
  induction s as [|x s IH]; [by rewrite append_nil_l|].
  rewrite append_cons. cbn. rewrite IH. by destruct (Ascii.eqb x c).
Qed.

Lemma split_free sep s : free_of sep s = true -> Str.split sep s = [s].
Proof.
  induction s as [|x s IH]; cbn; [done|].
  destruct (Ascii.eqb x sep); cbn; [done|]. intros H. by rewrite IH.
Qed.

Lemma split_app sep s t :
  free_of sep s = true ->
  Str.split sep (s ++ String sep t)%string = s :: Str.split sep t.
Proof.
  induction s as [|x s IH]; intros H.
  - rewrite append_nil_l. cbn. by rewrite Ascii.eqb_refl.
  - rewrite append_cons. cbn in *. destruct (Ascii.eqb x sep); cbn in H; [done|].
    by rewrite IH.
Qed.

(** Reading one line that was written with a line feed at its end. *)
Lemma lines_from_line cur s rest :
  free_of Str.LF s = true -> free_of Str.CR s = true ->
  Str.lines_from cur (s ++ String Str.LF rest)%string
  = (cur ++ s ++ String Str.LF "")%string :: Str.lines_from "" rest.
Proof.
  revert cur. induction s as [|x s IH]; intros cur Hlf Hcr.
  - by rewrite !append_nil_l.
  - rewrite append_cons. cbn in *.
    destruct (Ascii.eqb x Str.LF); cbn in Hlf; [done|].
    destruct (Ascii.eqb x Str.CR); cbn in Hcr; [done|].
    rewrite IH by done. by rewrite append_assoc, append_cons, append_nil_l.
Qed.

Lemma join_empty_cons s ss : Str.join "" (s :: ss) = (s ++ Str.join "" ss)%string.
Proof. destruct ss; cbn; [by rewrite append_nil_r|by rewrite append_nil_l]. Qed.

Lemma lines_join (texts : list string) :
  Forall (fun s => free_of Str.LF s = true /\ free_of Str.CR s = true) texts ->
  Str.lines (Str.join "" (map (fun s => s ++ String Str.LF "")%string texts))
  = map (fun s => s ++ String Str.LF "")%string texts.
Proof.
  unfold Str.lines. induction 1 as [|s texts [Hlf Hcr] _ IH]; [done|].
  rewrite map_cons, join_empty_cons, append_assoc.
  rewrite append_cons, append_nil_l, lines_from_line by done.
  by rewrite append_nil_l, IH.
Qed.

Lemma rstrip_line_feed s : Str.rstrip (s ++ String Str.LF "")%string = Str.rstrip s.
Proof. by rewrite rstrip_app. Qed.

(** A separator that is not white space shields what is before it. *)
Lemma rstrip_after sep s t :
  Str.isspace sep = false ->
  Str.rstrip (s ++ String sep t)%string = (s ++ String sep (Str.rstrip t))%string.
Proof.
  intros Hsep. rewrite rstrip_app. cbn. rewrite Hsep, andb_false_r. done.
Qed.

Lemma lstrip_before sep s t :
  Str.isspace sep = false -> Str.lstrip s = s ->
  Str.lstrip (s ++ String sep t)%string = (s ++ String sep t)%string.
Proof.
  intros Hsep Hs. destruct s as [|c s].
  - rewrite append_nil_l. cbn. by rewrite Hsep.
  - by apply lstrip_app.
Qed.

Lemma append_line i t a z :
  (i ++ "|" ++ t ++ "|" ++ a ++ z)%string = ((i ++ "|" ++ t ++ "|" ++ a) ++ z)%string.
Proof.
  rewrite (append_assoc i). f_equal. rewrite !append_cons, !append_nil_l. f_equal.
  by rewrite (append_assoc t).
Qed.

Lemma catalog_line_written catalog book :
  catalog_book book ->
  catalog_line catalog
    ((id book ++ "|" ++ title book ++ "|" ++ author book) ++ String Str.LF "")%string
  = catalog ++ [book].
Proof.
  destruct book as [i t a]. unfold catalog_book, catalog_field. cbn [id title author].
  intros [[Hi [Hi' _]] [[Ht [Ht' _]] [Ha [Ha' _]]]].
  rewrite <- (append_line i t a).
  destruct (strip_fixed i Hi) as [Hil _]. destruct (strip_fixed a Ha) as [_ Har].
  unfold catalog_line.
  assert (E : Str.strip (i ++ "|" ++ t ++ "|" ++ a ++ String Str.LF "")%string
              = (i ++ "|" ++ t ++ "|" ++ a)%string).
  { unfold Str.strip. rewrite !append_cons, !append_nil_l.
    rewrite lstrip_before by done. rewrite !rstrip_after by done.
    by rewrite rstrip_line_feed, Har. }
  rewrite E. rewrite !append_cons, !append_nil_l.
  rewrite split_app by done. rewrite split_app by done. rewrite split_free by done.
  by rewrite Hi, Ht, Ha.
Qed.

Lemma parse_catalog_text catalog :
  Forall catalog_book catalog -> parse_catalog (catalog_text catalog) = catalog.
Proof.
  intros Hgood. unfold parse_catalog, catalog_text.
  assert (Hmap : map (fun book : Book =>
                        (id book ++ "|" ++ title book ++ "|" ++ author book
                         ++ String Str.LF "")%string) catalog
                 = map (fun s => s ++ String Str.LF "")%string
                     (map (fun book : Book =>
                             (id book ++ "|" ++ title book ++ "|" ++ author book)%string)
                          catalog)).
  { rewrite map_map. apply map_ext. intros book. apply append_line. }
  rewrite Hmap, lines_join; clear Hmap.
  - assert (H : forall done_,
              fold_left catalog_line
                (map (fun s => s ++ String Str.LF "")%string
                   (map (fun book : Book =>
                           (id book ++ "|" ++ title book ++ "|" ++ author book)%string)
                        catalog)) done_
              = done_ ++ catalog).
    { induction Hgood as [|book catalog Hbook _ IH]; intros done_; cbn [map fold_left].
      - by rewrite app_nil_r.
      - rewrite (catalog_line_written done_ book Hbook), IH. by rewrite <- app_assoc. }
    apply H.
  - apply Forall_map. eapply Forall_impl; [exact Hgood|].
    intros [i t a] [[_ [_ [Hi1 Hi2]]] [[_ [_ [Ht1 Ht2]]] [_ [_ [Ha1 Ha2]]]]].
    cbn [id title author] in *.
    rewrite !free_of_app, Hi1, Hi2, Ht1, Ht2, Ha1, Ha2. done.
Qed.

Lemma reload_eq l :
  reload l =
  {| catalog := parse_catalog (catalog_text (catalog l));
     available_book_ids := list_to_set (id <$> parse_catalog (catalog_text (catalog l)));
     issued_records := parse_issued_records (issued_records_text (issued_records l)) |}.
Proof.
  unfold reload. rewrite start_self. unfold exec, save_all, _save_catalog,
    _save_issued_records. unfold_M. cbn.
  rewrite lookup_insert_eq, lookup_insert_ne, lookup_insert_eq by done. done.
Qed.

(** The catalog half of the round trip holds: a catalog whose fields are
    trimmed, on one line and without the separator is read back as it was
    written, and the available ids are rebuilt from it. *)
Theorem reload_catalog l :
  Forall catalog_book (catalog l) ->
  catalog (reload l) = catalog l /\
  available_book_ids (reload l) = list_to_set (id <$> catalog l).
Proof. intros Hgood. rewrite reload_eq. cbn. by rewrite parse_catalog_text. Qed.

(** The issued-records half does not: a record with one book comes back
    with a blank before the book id, whatever the two ids. *)
Theorem reload_single_record l student_id book_id :
  issued_records l = {[student_id := {[book_id]}]} ->
  record_id student_id -> record_id book_id -> book_id ≠ EmptyString ->
  issued_records (reload l) = {[student_id := {[String " " book_id]}]} /\
  reload l ≠ l.
Proof.
  intros Hl [Hs [Hs1 [_ [Hs2 Hs3]]]] [Hb [Hb1 [Hb2 [Hb3 Hb4]]]] Hne.
  destruct (strip_fixed _ Hs) as [Hsl _]. destruct (strip_fixed _ Hb) as [_ Hbr].
  assert (E : issued_records (reload l) = {[student_id := {[String " " book_id]}]}).
  { rewrite reload_eq. cbn [issued_records]. rewrite Hl.
    unfold issued_records_text, parse_issued_records.
    rewrite map_to_list_singleton. cbn [map]. rewrite elements_singleton.
    cbn [Str.join]. rewrite !append_cons, !append_nil_l.
    replace (student_id ++ String ":" (String " " (book_id ++ String Str.LF "")))%string
      with ((student_id ++ String ":" (String " " book_id)) ++ String Str.LF "")%string
      by (by rewrite (append_assoc student_id), !append_cons).
    pose proof (lines_join [(student_id ++ String ":" (String " " book_id))%string]) as Hlines.
    cbn [map Str.join] in Hlines. rewrite Hlines.
    2:{ constructor; [|constructor]. rewrite !free_of_app. cbn. by rewrite Hs2, Hs3, Hb3, Hb4. }
    cbn [fold_left]. unfold issued_line.
    assert (Es : Str.strip ((student_id ++ String ":" (String " " book_id))
                            ++ String Str.LF "")%string
                 = (student_id ++ String ":" (String " " book_id))%string).
    { unfold Str.strip. rewrite (append_assoc student_id), append_cons.
      rewrite lstrip_before by done. rewrite rstrip_after by done.
      rewrite rstrip_line_feed. cbn [Str.rstrip]. rewrite Hbr.
      by destruct book_id. }
    rewrite Es, split_app by done.
    rewrite split_free by (cbn; by rewrite Hb1).
    rewrite split_free by (cbn; by rewrite Hb2).
    rewrite Hs, list_to_set_singleton_L. by rewrite insert_empty. }
  split; [exact E|]. intros H. rewrite H, Hl in E.
  apply (f_equal (fun records => records !! student_id)) in E.
  rewrite !lookup_singleton_eq in E. apply (inj Some) in E.
  assert (Hin : book_id ∈ ({[String " " book_id]} : gset string)).
  { rewrite <- E. by apply elem_of_singleton. }
  apply elem_of_singleton in Hin. apply (f_equal String.length) in Hin. cbn in Hin. lia.
Qed.

End Persistence.

(** ** Titles: [str.title] capitalizes each word *)

Section Words.

Implicit Types (s : string) (c : ascii).








End Words.

(** ** Facts the statements rest on *)

Section Facts.

Implicit Types (l : Library) (d : Disk) (w : World) (out : list message)
  (records : gmap string (gset string)) (X : gset string).

Lemma book_exists_false l b :
  book_exists l b = false <-> b ∉ (id <$> catalog l).
Proof.
  rewrite <- not_true_iff_false, book_exists_true, list_elem_of_fmap.
  split; intros H [book Hb]; apply H; exists book; by destruct Hb.
Qed.

Lemma union_difference_singleton X b : b ∉ X -> (X ∪ {[b]}) ∖ {[b]} = X.
Proof.
  intros Hb. apply set_eq. intros x.
  rewrite elem_of_difference, elem_of_union, elem_of_singleton. split.
  - by intros [[?|?] ?].
  - intros Hx. split; [by left|]. by intros ->.
Qed.

Lemma held_delete_unheld records s b :
  (records !! s = None \/ records !! s = Some ∅) ->
  held (delete s records) b <-> held records b.
Proof.
  intros Hs. unfold held. split.
  - intros [s' [X [H Hb]]]. apply lookup_delete_Some in H as [_ H]. by exists s', X.
  - intros [s' [X [H Hb]]]. exists s', X. split; [|done].
    apply lookup_delete_Some. split; [|done]. intros ->.
    destruct Hs as [Hs|Hs]; rewrite Hs in H; [done|]. injection H as <-. set_solver.
Qed.

Lemma available_books_ext l1 l2 :
  catalog l1 = catalog l2 ->
  (forall b, held (issued_records l1) b <-> held (issued_records l2) b) ->
  available_books l1 = available_books l2.
Proof.
  intros Hc Hh. unfold available_books. rewrite Hc.
  apply filter_ext_in. intros book _. apply bool_decide_ext.
  by rewrite !elem_of_issued_book_ids, Hh.
Qed.

Lemma said_display w :
  said display_available_books w = MsgDisplayHeader :: listing (self w).
Proof.
  destruct w as [l d kb out]. apply said_app. unfold exec. by rewrite display_run.
Qed.

Lemma listing_ext l1 l2 :
  catalog l1 = catalog l2 -> available_books l1 = available_books l2 ->
  listing l1 = listing l2.
Proof. intros Hc Ha. unfold listing. by rewrite Hc, Ha. Qed.

(** [issue_book] reports success exactly when the book is in the catalog
    and nobody holds it. *)
Lemma issue_book_said l d out rs rb rest :
  let s := Str.upper (Str.strip rs) in
  let b := Str.upper (Str.strip rb) in
  MsgBookIssued b s ∈ said issue_book (Build_World l d (rs :: rb :: rest) out) <->
  book_exists l b = true /\ is_issued l b = false.
Proof.
  intros s b. unfold said, exec. rewrite issue_book_run. fold s b. cbn [snd stdout].
  destruct (book_exists l b); cbn [negb]; [destruct (is_issued l b)|]; cbn [stdout].
  - rewrite <- app_assoc, drop_app_length. cbn. split; [|by intros [_ ?]].
    intros H. repeat (apply elem_of_cons in H as [H|H]; [discriminate|]).
    by apply elem_of_nil in H.
  - split; [done|intros _].
    destruct (io_error d); cbn [stdout]; rewrite <- app_assoc, drop_app_length;
      set_solver.
  - rewrite <- app_assoc, drop_app_length. cbn. split; [|by intros [? _]].
    intros H. repeat (apply elem_of_cons in H as [H|H]; [discriminate|]).
    by apply elem_of_nil in H.
Qed.

(** The loop of [add_book] uses up at least the line it accepts. *)
Lemma ask_book_id_rest taken pending msgs book_id rest :
  ask_book_id taken pending = (msgs, Some (book_id, rest)) ->
  length rest < length pending.
Proof.
  revert msgs. induction pending as [|line pending IH]; intros msgs; cbn; [done|].
  destruct (decide (Str.upper (Str.strip line) ∈ taken)).
  - destruct (ask_book_id taken pending) as [msgs' r] eqn:E.
    intros [= <- ->]. specialize (IH _ eq_refl). lia.
  - intros [= <- <- <-]. lia.
Qed.


Lemma enumerate_imap {A B} (f : nat -> A -> B) (xs : list A) (n : nat) :
  map (fun '(i, x) => f i x) (enumerate xs n) = imap (fun i x => f (n + i) x) xs.
Proof.
  revert n f. induction xs as [|x xs IH]; intros n f; cbn; [done|].
  rewrite Nat.add_0_r. f_equal. rewrite IH. apply imap_ext. intros i y _. cbn.
  f_equal. lia.
Qed.

Lemma available_books_filter l :
  available_books l = filter (fun book => id book ∉ issued_book_ids l) (catalog l).
Proof.
  unfold available_books. induction (catalog l) as [|book c IH]; [done|].
  rewrite filter_cons, <- IH. cbn [List.filter].
  destruct (decide (id book ∉ issued_book_ids l)) as [H|H].
  - by rewrite bool_decide_eq_true_2.
  - by rewrite bool_decide_eq_false_2.
Qed.

End Facts.

(** * The properties of the specification *)

Section Specification.

Implicit Types (l : Library) (d : Disk) (w : World) (out : list message)
  (records : gmap string (gset string)) (X : gset string).

(** C1 fails on the code.  The library of the specification's scenario,
    where B101 is issued to S101, is written as the line [S101: B101];
    [_load_issued_records] trims the student id but not the book ids, so
    the book id comes back with the blank that follows the colon.  The
    catalog and the available ids come back as they were; the issued
    records do not, and after a restart the issued book is listed as
    available. *)
Theorem reload_changes_issued_records :
  let b101 := {| id := "B101"; title := "Python Guide"; author := "G V" |} in
  let l := {| catalog := [b101];
              available_book_ids := {["B101"]};
              issued_records := {["S101" := {["B101"]}]} |} in
  let w := Build_World l empty_disk [] [] in
  self (exec issue_book (exec add_book
          (start empty_disk ["B101"; "python guide"; "g v"; "S101"; "B101"]))) = l /\
  files (disk (exec save_all w)) !! BOOK_CATALOG_FILE
    = Some ("B101|Python Guide|G V" ++ String Str.LF "")%string /\
  files (disk (exec save_all w)) !! ISSUED_RECORDS_FILE
    = Some ("S101: B101" ++ String Str.LF "")%string /\
  reload l = set_issued_records {["S101" := {[" B101"]}]} l /\
  reload l ≠ l /\
  said display_available_books w = [MsgDisplayHeader; MsgAllIssued] /\
  said display_available_books (Build_World (reload l) empty_disk [] [])
    = [MsgDisplayHeader; MsgTotalAvailable 1; MsgBookLine 1 b101].
Proof.
  intros b101 l w.
  assert (Hreload : reload l = set_issued_records {["S101" := {[" B101"]}]} l).
  { vm_compute. reflexivity. }
  split_and!.
  - vm_compute. reflexivity.
  - vm_compute. reflexivity.
  - vm_compute. reflexivity.
  - exact Hreload.
  - rewrite Hreload. intros H.
    assert (E : ({["S101" := {[" B101"]}]} : gmap string (gset string)) !! "S101"
                = ({["S101" := {["B101"]}]} : gmap string (gset string)) !! "S101").
    { exact (f_equal (fun l' => issued_records l' !! "S101") H). }
    rewrite !lookup_singleton_eq in E. apply (inj Some) in E.
    assert (Hin : " B101" ∈ ({["B101"]} : gset string)).
    { rewrite <- E. by apply elem_of_singleton. }
    apply elem_of_singleton in Hin. discriminate.
  - rewrite said_display. vm_compute. reflexivity.
  - rewrite said_display, Hreload. vm_compute. reflexivity.
Qed.

(** C2.  When [issue_book] reports success for a student and a book, and
    [return_book] is then run for the same student and book, the listing
    of available books is what it was before the issue; and the issued
    records, hence the whole library, are what they were, the student not
    being mapped to an empty set before the issue (no program state maps
    a student to an empty set: [reachable_no_empty_entry]). *)
Theorem issue_then_return l d out rs rb rs' rb' rest :
  let s := Str.upper (Str.strip rs) in
  let b := Str.upper (Str.strip rb) in
  let w := Build_World l d (rs :: rb :: rs' :: rb' :: rest) out in
  Str.upper (Str.strip rs') = s ->
  Str.upper (Str.strip rb') = b ->
  MsgBookIssued b s ∈ said issue_book w ->
  let w2 := exec return_book (exec issue_book w) in
  MsgBookReturned b s ∈ said return_book (exec issue_book w) /\
  available_books (self w2) = available_books l /\
  said display_available_books w2 = said display_available_books w /\
  (issued_records l !! s ≠ Some ∅ -> self w2 = l).
Proof.
  intros s b w Hs Hb Hok. subst w.
  apply issue_book_said in Hok as [Hex Hfree]. fold b in Hex, Hfree.
  set (records := issued_records l).
  set (X0 := default ∅ (records !! s)).
  set (l1 := set_issued_records (<[s := X0 ∪ {[b]}]> records) l).
  assert (H1 : exists d1 out1,
             exec issue_book (Build_World l d (rs :: rb :: rs' :: rb' :: rest) out)
             = Build_World l1 d1 (rs' :: rb' :: rest) out1).
  { unfold exec. rewrite issue_book_run. fold s b. rewrite Hex, Hfree. cbn.
    destruct (io_error d); by eexists _, _. }
  destruct H1 as [d1 [out1 ->]].
  assert (HbX0 : b ∉ X0).
  { intros Hin. apply is_issued_false in Hfree. apply Hfree. exists s, X0.
    split; [|done]. subst X0. fold records.
    destruct (records !! s); [done|]. cbn in Hin. by apply not_elem_of_empty in Hin. }
  pose proof (union_difference_singleton X0 b HbX0) as Hdiff.
  set (l2 := set_issued_records
               (if decide (X0 = ∅) then delete s records else records) l).
  assert (H2 : exists d2 out2,
             return_book (Build_World l1 d1 (rs' :: rb' :: rest) out1)
             = (Returned (),
                Build_World l2 d2 rest
                  (out1 ++ [MsgReturnHeader; Prompt "Enter Student ID: ";
                            Prompt "Enter Book ID to return: ";
                            MsgBookReturned b s] ++ out2))).
  { rewrite return_book_run. rewrite Hs, Hb. cbn [issued_records l1 set_issued_records].
    rewrite lookup_insert_eq. destruct (decide (b ∈ X0 ∪ {[b]})) as [_|Hn];
      [|destruct Hn; apply elem_of_union; right; by apply elem_of_singleton].
    rewrite Hdiff.
    assert (El : set_issued_records
                   (if decide (X0 = ∅) then delete s (<[s := X0 ∪ {[b]}]> records)
                    else <[s := X0]> (<[s := X0 ∪ {[b]}]> records)) l1 = l2).
    { subst l2 l1. unfold set_issued_records. cbn. f_equal.
      destruct (decide (X0 = ∅)) as [He|Hne].
      - by rewrite delete_insert_eq.
      - rewrite insert_insert_eq. apply insert_id. subst X0.
        destruct (records !! s); [done|]. by destruct Hne. }
    cbn zeta. rewrite El.
    destruct (io_error d1); eexists _, _; norm_out; reflexivity. }
  destruct H2 as [d2 [out2 H2]].
  assert (Ha : available_books l2 = available_books l).
  { apply available_books_ext; [done|]. intros b'. subst l2. cbn.
    destruct (decide (X0 = ∅)) as [He|_]; [|done].
    apply held_delete_unheld. subst X0. fold records.
    destruct (records !! s) as [X|]; [right|by left]. cbn in He. by rewrite He. }
  split; [|split; [|split]].
  - unfold said, exec. rewrite H2. cbn [snd stdout].
    rewrite drop_app_length. apply elem_of_app. left. repeat constructor.
  - unfold exec. by rewrite H2.
  - rewrite !said_display. unfold exec. rewrite H2. cbn [snd self]. f_equal.
    by apply listing_ext.
  - intros Hne. unfold exec. rewrite H2. cbn [snd self]. subst l2.
    destruct (decide (X0 = ∅)) as [He|_]; [|by destruct l].
    assert (records !! s = None) as Hnone.
    { subst X0. destruct (records !! s) as [X|] eqn:E; [|done].
      cbn in He. subst X. by destruct Hne. }
    rewrite delete_id by done. by destruct l.
Qed.

Lemma issue_then_return_witness :
  let l := {| catalog := [{| id := "B101"; title := "Python Guide"; author := "G V" |}];
              available_book_ids := {["B101"]};
              issued_records := ∅ |} in
  let w := Build_World l empty_disk ["s101"; "b101"; " S101 "; "B101"] [] in
  MsgBookIssued "B101" "S101" ∈ said issue_book w /\
  self (exec return_book (exec issue_book w)) = l.
Proof.
  intros l w.
  assert (Hok : MsgBookIssued "B101" "S101" ∈ said issue_book w).
  { apply (issue_book_said l empty_disk [] "s101" "b101"). split; reflexivity. }
  split; [exact Hok|].
  refine (proj2 (proj2 (proj2
    (issue_then_return l empty_disk [] "s101" "b101" " S101 " "B101" [] _ _ Hok))) _).
  - reflexivity.
  - reflexivity.
  - cbn [issued_records l]. rewrite lookup_empty. discriminate.
Defined.

(** C3, as the code has it.  [issue_book] looks the book up in the catalog
    first: when no catalog entry has the id it prints the not-found error;
    when an entry has it and some student, whoever asks, holds the book,
    it prints the already-issued error.  Either way the library and the
    disk stay as they were. *)
Theorem issue_book_failures l d out rs rb rest :
  let b := Str.upper (Str.strip rb) in
  let w := Build_World l d (rs :: rb :: rest) out in
  let shown := (out ++ [MsgIssueHeader; Prompt "Enter Student ID: ";
                        Prompt "Enter Book ID to issue: "])%list in
  (b ∉ (id <$> catalog l) ->
   issue_book w = (Returned (), Build_World l d rest (shown ++ [MsgBookNotFound b]))) /\
  (b ∈ (id <$> catalog l) -> held (issued_records l) b ->
   issue_book w = (Returned (), Build_World l d rest (shown ++ [MsgBookAlreadyIssued b]))).
Proof.
  intros b w shown. subst w. rewrite issue_book_run. fold b shown. split.
  - intros Hb. apply book_exists_false in Hb. by rewrite Hb.
  - intros Hb Hheld. destruct (book_exists l b) eqn:Hex.
    + apply is_issued_true in Hheld. by rewrite Hheld.
    + by apply book_exists_false in Hex.
Qed.

Lemma issue_book_failures_witness :
  let l := {| catalog := [{| id := "B101"; title := "T"; author := "A" |}];
              available_book_ids := {["B101"]};
              issued_records := {["S101" := {["B101"]}]} |} in
  issue_book (Build_World l empty_disk ["s102"; "b999"] []) =
    (Returned (),
     Build_World l empty_disk []
       [MsgIssueHeader; Prompt "Enter Student ID: "; Prompt "Enter Book ID to issue: ";
        MsgBookNotFound "B999"]) /\
  issue_book (Build_World l empty_disk ["s102"; "b101"] []) =
    (Returned (),
     Build_World l empty_disk []
       [MsgIssueHeader; Prompt "Enter Student ID: "; Prompt "Enter Book ID to issue: ";
        MsgBookAlreadyIssued "B101"]).
Proof.
  intros l. split.
  - apply (proj1 (issue_book_failures l empty_disk [] "s102" "b999" [])).
    vm_compute. intros H. by repeat (apply elem_of_cons in H as [H|H]; [discriminate|]);
      apply elem_of_nil in H.
  - apply (proj2 (issue_book_failures l empty_disk [] "s102" "b101" [])).
    + vm_compute. left.
    + exists "S101", {["B101"]}. split; [reflexivity|]. vm_compute. set_solver.
Defined.

(** C3 as stated fails: the program is started on a disk whose issued
    records name a book the catalog file does not have; student S102 asks
    for that book, which S101 holds, and gets the not-found error, not the
    already-issued one. *)
Lemma issue_book_held_unknown_book :
  let d := {| files := {[ISSUED_RECORDS_FILE := "S101:B101"]}; io_error := false |} in
  let w := start d ["S102"; "B101"] in
  held (issued_records (self w)) "B101" /\
  said issue_book w =
    [MsgIssueHeader; Prompt "Enter Student ID: "; Prompt "Enter Book ID to issue: ";
     MsgBookNotFound "B101"] /\
  ~ (MsgBookAlreadyIssued "B101" ∈ said issue_book w).
Proof.
  intros d w.
  assert (Hw : w = Build_World
                     {| catalog := []; available_book_ids := ∅;
                        issued_records := {["S101" := {["B101"]}]} |}
                     d ["S102"; "B101"] []).
  { vm_compute. reflexivity. }
  assert (Hsaid : said issue_book w =
    [MsgIssueHeader; Prompt "Enter Student ID: "; Prompt "Enter Book ID to issue: ";
     MsgBookNotFound "B101"]).
  { rewrite Hw. apply said_app. unfold exec. rewrite issue_book_run. reflexivity. }
  split; [|split; [exact Hsaid|]].
  - rewrite Hw. exists "S101", {["B101"]}. split; [reflexivity|]. set_solver.
  - rewrite Hsaid. intros H.
    repeat (apply elem_of_cons in H as [H|H]; [discriminate|]). by apply elem_of_nil in H.
Qed.

(** C4.  [return_book] prints the no-records error when the student has no
    entry and the not-issued error when the entry lacks the book, and
    both leave the library and the disk as they were.  Otherwise it
    reports the return, takes the book out of the student's set and, when
    nothing is left in the set, deletes the student's key; the other
    entries, the catalog and the available ids stay, and the records file,
    when it can be written, holds the new records. *)
Theorem return_book_cases l d out rs rb rest :
  let s := Str.upper (Str.strip rs) in
  let b := Str.upper (Str.strip rb) in
  let w := Build_World l d (rs :: rb :: rest) out in
  let shown := (out ++ [MsgReturnHeader; Prompt "Enter Student ID: ";
                        Prompt "Enter Book ID to return: "])%list in
  (issued_records l !! s = None ->
   return_book w =
     (Returned (), Build_World l d rest (shown ++ [MsgStudentHasNoRecords s]))) /\
  (forall X, issued_records l !! s = Some X -> b ∉ X ->
   return_book w =
     (Returned (), Build_World l d rest (shown ++ [MsgBookNotIssuedToStudent b s]))) /\
  (forall X, issued_records l !! s = Some X -> b ∈ X ->
   let w' := exec return_book w in
   result return_book w = Returned () /\
   MsgBookReturned b s ∈ said return_book w /\
   catalog (self w') = catalog l /\
   available_book_ids (self w') = available_book_ids l /\
   (X ∖ {[b]} = ∅ ->
    issued_records (self w') = delete s (issued_records l) /\
    s ∉ dom (issued_records (self w'))) /\
   (X ∖ {[b]} ≠ ∅ ->
    issued_records (self w') = <[s := X ∖ {[b]}]> (issued_records l)) /\
   (io_error d = false ->
    files (disk w') !! ISSUED_RECORDS_FILE =
      Some (issued_records_text (issued_records (self w'))))).
Proof.
  intros s b w shown. subst w. unfold said, exec, result.
  rewrite return_book_run. fold s b shown. cbn [fst snd].
  split; [|split].
  - by intros ->.
  - intros X -> Hb. by destruct (decide (b ∈ X)).
  - intros X -> Hb. destruct (decide (b ∈ X)) as [_|]; [|done].
    split; [done|]. split.
    { destruct (io_error d); cbn [stdout snd]; subst shown; rewrite <- app_assoc;
        rewrite drop_app_length; set_solver. }
    destruct (decide (X ∖ {[b]} = ∅)) as [He|Hne]; destruct (io_error d) eqn:Hio;
      cbn; split_and!; try done.
    all: try (intros _; split; [done|apply not_elem_of_dom, lookup_delete_eq]).
    all: intros _; by rewrite lookup_insert_eq.
Qed.

Lemma return_book_cases_witness :
  let l := {| catalog := [{| id := "B101"; title := "T"; author := "A" |}];
              available_book_ids := {["B101"]};
              issued_records := {["S101" := {["B101"]}]} |} in
  return_book (Build_World l empty_disk ["s999"; "b101"] []) =
    (Returned (),
     Build_World l empty_disk []
       [MsgReturnHeader; Prompt "Enter Student ID: "; Prompt "Enter Book ID to return: ";
        MsgStudentHasNoRecords "S999"]) /\
  return_book (Build_World l empty_disk ["s101"; "b999"] []) =
    (Returned (),
     Build_World l empty_disk []
       [MsgReturnHeader; Prompt "Enter Student ID: "; Prompt "Enter Book ID to return: ";
        MsgBookNotIssuedToStudent "B999" "S101"]) /\
  "S101" ∉ dom (issued_records
                  (self (exec return_book (Build_World l empty_disk ["s101"; "b101"] [])))).
Proof.
  intros l. split; [|split].
  - apply (proj1 (return_book_cases l empty_disk [] "s999" "b101" [])).
    reflexivity.
  - apply (proj1 (proj2 (return_book_cases l empty_disk [] "s101" "b999" []))
             {["B101"]}).
    + reflexivity.
    + vm_compute. set_solver.
  - pose proof (proj2 (proj2 (return_book_cases l empty_disk [] "s101" "b101" []))
                  {["B101"]}) as H.
    cbn zeta in H. refine (proj2 (proj1 (proj2 (proj2 (proj2 (proj2 (H _ _))))) _)).
    + reflexivity.
    + vm_compute. set_solver.
    + vm_compute. set_solver.
Defined.

(** C5.  When the id typed is, in upper case and trimmed, already in
    [available_book_ids], [add_book] prints the duplicate-id error, having
    changed nothing, and asks for an id again: from there the call goes on
    as [add_book] does on the lines that are left.  No book with the
    refused id is added and the issued records stay.  The catalog and the
    available ids stay as they were exactly when the call ends with
    [EOFError] for lack of input, which it does when at most two lines are
    left; a call that returns has appended one book, with another id that
    was not taken, and it returns as soon as the next line has such an
    id and two more lines follow. *)
Theorem add_book_duplicate l d out raw rest :
  let book_id := Str.upper (Str.strip raw) in
  let w := Build_World l d (raw :: rest) out in
  let w_rest := Build_World l d rest out in
  book_id ∈ available_book_ids l ->
  (exists more,
     said add_book w =
       MsgAddHeader :: Prompt "Enter Book ID (e.g., B101): "
         :: MsgDuplicateId book_id :: more) /\
  (result add_book w = result add_book w_rest /\
   self (exec add_book w) = self (exec add_book w_rest) /\
   disk (exec add_book w) = disk (exec add_book w_rest) /\
   stdin (exec add_book w) = stdin (exec add_book w_rest)) /\
  (result add_book w = Raised EOFError ->
   self (exec add_book w) = l /\ disk (exec add_book w) = d) /\
  (result add_book w = Returned () ->
   exists book,
     (id book ≠ book_id) /\ (id book ∉ available_book_ids l) /\
     self (exec add_book w) =
       {| catalog := catalog l ++ [book];
          available_book_ids := available_book_ids l ∪ {[id book]};
          issued_records := issued_records l |}) /\
  (length rest <= 2 -> result add_book w = Raised EOFError) /\
  (forall raw_id raw_title raw_author rest',
     rest = raw_id :: raw_title :: raw_author :: rest' ->
     Str.upper (Str.strip raw_id) ∉ available_book_ids l ->
     result add_book w = Returned ()) /\
  issued_records (self (exec add_book w)) = issued_records l.
Proof.
  intros book_id w w_rest Hdup. subst w w_rest.
  assert (Hnext : forall raw_id raw_title raw_author rest',
            rest = raw_id :: raw_title :: raw_author :: rest' ->
            Str.upper (Str.strip raw_id) ∉ available_book_ids l ->
            ask_book_id (available_book_ids l) rest
            = ([Prompt "Enter Book ID (e.g., B101): "],
               Some (Str.upper (Str.strip raw_id), raw_title :: raw_author :: rest'))).
  { intros raw_id raw_title raw_author rest' -> Hfresh. cbn [ask_book_id].
    by destruct (decide (Str.upper (Str.strip raw_id) ∈ available_book_ids l)). }
  unfold said, exec, result. rewrite !add_book_run. cbn [ask_book_id]. fold book_id.
  destruct (decide (book_id ∈ available_book_ids l)) as [_|]; [|done].
  destruct (ask_book_id (available_book_ids l) rest)
    as [msgs [[book_id' pending]|]] eqn:E.
  - pose proof (ask_book_id_fresh _ _ _ _ _ E) as Hfresh.
    pose proof (ask_book_id_rest _ _ _ _ _ E) as Hlen.
    destruct pending as [|rt [|ra rest']]; cbn [fst snd self disk stdin stdout].
    + split_and!; try done.
      * rewrite <- ?app_assoc; cbn [app]; rewrite drop_app_length; by eexists.
      * intros ? ? ? ? Hrest Hf. by specialize (Hnext _ _ _ _ Hrest Hf).
    + split_and!; try done.
      * rewrite <- ?app_assoc; cbn [app]; rewrite drop_app_length; by eexists.
      * intros ? ? ? ? Hrest Hf. by specialize (Hnext _ _ _ _ Hrest Hf).
    + destruct (io_error d) eqn:Hio; cbn [fst snd self disk stdin stdout];
        (split_and!; try done;
         [rewrite <- ?app_assoc; cbn [app]; rewrite drop_app_length; by eexists
         |intros _;
          exists {| id := book_id'; title := Str.title (Str.strip rt);
                    author := Str.title (Str.strip ra) |};
          split_and!; [cbn [id]; intros Eid; apply Hfresh; by rewrite Eid|done|done]
         |cbn [length] in Hlen; intros Hle; lia]).
  - cbn [fst snd self disk stdin stdout]. split_and!; try done.
    + rewrite <- ?app_assoc; cbn [app]; rewrite drop_app_length; by eexists.
    + intros ? ? ? ? Hrest Hf. by specialize (Hnext _ _ _ _ Hrest Hf).
Qed.

Lemma add_book_duplicate_witness :
  let b101 := {| id := "B101"; title := "Python Guide"; author := "G V" |} in
  let l := {| catalog := [b101]; available_book_ids := {["B101"]}; issued_records := ∅ |} in
  let w := Build_World l empty_disk [" b101"; "rocq guide"; "a b"] [] in
  ("B101" ∈ available_book_ids l) /\
  result add_book w = Raised EOFError /\
  self (exec add_book w) = l /\ disk (exec add_book w) = empty_disk.
Proof.
  intros b101 l w.
  assert (Hin : "B101" ∈ available_book_ids l).
  { unfold l. cbn [available_book_ids]. by apply elem_of_singleton. }
  pose proof (add_book_duplicate l empty_disk [] " b101" ["rocq guide"; "a b"] Hin) as H.
  cbn zeta in H. destruct H as [_ [_ [Hraised [_ [Hshort _]]]]].
  assert (Hr : result add_book w = Raised EOFError) by (apply Hshort; cbn; lia).
  split; [exact Hin|]. split; [exact Hr|]. exact (Hraised Hr).
Defined.

(** The duplicate id is refused, yet the call that was given it ends with a
    longer catalog: the next line is taken as the id. *)
Lemma add_book_duplicate_then_added :
  let b101 := {| id := "B101"; title := "Python Guide"; author := "G V" |} in
  let b102 := {| id := "B102"; title := "Rocq Guide"; author := "A B" |} in
  let l := {| catalog := [b101]; available_book_ids := {["B101"]}; issued_records := ∅ |} in
  let w := Build_World l empty_disk ["b101"; "b102"; "rocq guide"; "a b"] [] in
  Str.upper (Str.strip "b101") ∈ available_book_ids l /\
  MsgDuplicateId "B101" ∈ said add_book w /\
  result add_book w = Returned () /\
  catalog (self (exec add_book w)) = [b101; b102] /\
  catalog (self (exec add_book w)) ≠ catalog l /\
  available_book_ids (self (exec add_book w)) ≠ available_book_ids l.
Proof.
  intros b101 b102 l w.
  assert (Hin : "B101" ∈ available_book_ids l).
  { unfold l. cbn [available_book_ids]. by apply elem_of_singleton. }
  assert (Hout : "B102" ∉ available_book_ids l).
  { unfold l. cbn [available_book_ids]. by intros ?%elem_of_singleton. }
  assert (Hrun : add_book w =
            (Returned (),
             Build_World
               {| catalog := [b101; b102];
                  available_book_ids := {["B101"]} ∪ {["B102"]};
                  issued_records := ∅ |}
               {| files := <[BOOK_CATALOG_FILE := catalog_text [b101; b102]]> ∅;
                  io_error := false |}
               []
               [MsgAddHeader; Prompt "Enter Book ID (e.g., B101): "; MsgDuplicateId "B101";
                Prompt "Enter Book ID (e.g., B101): "; Prompt "Enter Book Title: ";
                Prompt "Enter Author Name: "; MsgBookAdded "Rocq Guide" "A B";
                MsgCatalogSaved])).
  { unfold w. rewrite add_book_run. cbn [ask_book_id].
    change (Str.upper (Str.strip "b101")) with "B101".
    change (Str.upper (Str.strip "b102")) with "B102".
    destruct (decide ("B101" ∈ available_book_ids l)) as [_|]; [|done].
    destruct (decide ("B102" ∈ available_book_ids l)) as [|_]; [done|].
    reflexivity. }
  unfold said, exec, result. rewrite Hrun. cbn [fst snd self catalog available_book_ids].
  split_and!.
  - exact Hin.
  - cbn. repeat constructor.
  - reflexivity.
  - reflexivity.
  - unfold l. cbn. discriminate.
  - unfold l. cbn [available_book_ids]. intros E.
    assert (H : "B102" ∈ ({["B101"]} ∪ {["B102"]} : gset string)) by set_solver.
    rewrite E in H. by apply elem_of_singleton in H.
Qed.




(** C7.  [display_available_books] works on the union of all the students'
    sets: a book id is in it exactly when some student holds the book.
    The books it lists are exactly the catalog entries whose id is not in
    the union, in catalog order.  It prints that the catalog is empty when
    the catalog has no entry, that all books are issued when the catalog
    has entries and none is left, and otherwise the number of available
    books and one line for each, numbered from 1, with the book's id,
    title and author.  It changes nothing and returns. *)
Theorem display_available_books_spec l d kb out :
  let w := Build_World l d kb out in
  let available := filter (fun book => id book ∉ issued_book_ids l) (catalog l) in
  (forall b, b ∈ issued_book_ids l <-> held (issued_records l) b) /\
  available_books l = available /\
  (forall book, book ∈ available <->
     book ∈ catalog l /\ ~ held (issued_records l) (id book)) /\
  available `sublist_of` catalog l /\
  display_available_books w =
    (Returned (), Build_World l d kb (out ++ said display_available_books w)) /\
  (catalog l = [] ->
   said display_available_books w = [MsgDisplayHeader; MsgCatalogEmpty]) /\
  (catalog l ≠ [] -> available = [] ->
   said display_available_books w = [MsgDisplayHeader; MsgAllIssued]) /\
  (available ≠ [] ->
   said display_available_books w =
     MsgDisplayHeader :: MsgTotalAvailable (length available)
       :: imap (fun i book => MsgBookLine (S i) book) available).
Proof.
  intros w available. subst w. rewrite said_display. cbn [self]. split_and!.
  - apply elem_of_issued_book_ids.
  - apply available_books_filter.
  - intros book. unfold available. rewrite list_elem_of_filter.
    rewrite elem_of_issued_book_ids. tauto.
  - apply sublist_filter.
  - by rewrite display_run.
  - unfold listing. by intros ->.
  - unfold listing. rewrite available_books_filter. fold available.
    intros Hc ->. by destruct (catalog l).
  - unfold listing. rewrite available_books_filter. fold available.
    intros Ha. destruct (catalog l) as [|book0 c] eqn:Hc.
    { by destruct Ha. }
    destruct available as [|book1 av]; [done|].
    do 2 f_equal. apply (enumerate_imap MsgBookLine (book1 :: av) 1).
Qed.

Lemma display_available_books_spec_witness :
  let b101 := {| id := "B101"; title := "Python Guide"; author := "G V" |} in
  let b102 := {| id := "B102"; title := "Rocq Guide"; author := "A B" |} in
  let l := {| catalog := [b101; b102];
              available_book_ids := {["B101"; "B102"]};
              issued_records := {["S101" := {["B101"]}]} |} in
  said display_available_books (Build_World l empty_disk [] [])
    = [MsgDisplayHeader; MsgTotalAvailable 1; MsgBookLine 1 b102] /\
  said display_available_books (Build_World empty_library empty_disk [] [])
    = [MsgDisplayHeader; MsgCatalogEmpty] /\
  said display_available_books
      (Build_World (set_issued_records {["S101" := {["B101"; "B102"]}]} l)
         empty_disk [] [])
    = [MsgDisplayHeader; MsgAllIssued].
Proof.
  intros b101 b102 l. split_and!.
  - refine (eq_trans
      (proj2 (proj2 (proj2 (proj2 (proj2 (proj2 (proj2
         (display_available_books_spec l empty_disk [] []))))))) _) _).
    + vm_compute. discriminate.
    + vm_compute. reflexivity.
  - refine (proj1 (proj2 (proj2 (proj2 (proj2 (proj2
      (display_available_books_spec empty_library empty_disk [] [])))))) _).
    reflexivity.
  - refine (proj1 (proj2 (proj2 (proj2 (proj2 (proj2 (proj2
      (display_available_books_spec
         (set_issued_records {["S101" := {["B101"; "B102"]}]} l)
         empty_disk [] []))))))) _ _).
    + discriminate.
    + vm_compute. reflexivity.
Defined.

(** C8.  When no student has an entry, [display_available_books] does not
    fail: the union of the issued ids is the empty set, every catalog
    entry is available, and the method returns after listing the whole
    catalog (or saying that the catalog is empty). *)
Theorem display_no_issued_records l d kb out :
  let w := Build_World l d kb out in
  issued_records l = ∅ ->
  issued_book_ids l = ∅ /\
  available_books l = catalog l /\
  result display_available_books w = Returned () /\
  said display_available_books w =
    MsgDisplayHeader ::
      match catalog l with
      | [] => [MsgCatalogEmpty]
      | _ :: _ => MsgTotalAvailable (length (catalog l))
                    :: imap (fun i book => MsgBookLine (S i) book) (catalog l)
      end.
Proof.
  intros w Hempty. subst w.
  assert (Hids : issued_book_ids l = ∅).
  { unfold issued_book_ids, values. by rewrite Hempty, map_to_list_empty. }
  assert (Hav : available_books l = catalog l).
  { unfold available_books. rewrite Hids.
    induction (catalog l) as [|book c IH]; [done|]. cbn [List.filter].
    rewrite bool_decide_eq_true_2 by apply not_elem_of_empty. by rewrite IH. }
  split_and!; [done|done|..].
  - unfold result. by rewrite display_run.
  - rewrite said_display. cbn [self]. unfold listing. rewrite Hav. f_equal.
    destruct (catalog l) as [|book c]; [done|].
    f_equal. apply (enumerate_imap MsgBookLine (book :: c) 1).
Qed.

Lemma display_no_issued_records_witness :
  let b101 := {| id := "B101"; title := "Python Guide"; author := "G V" |} in
  let l := {| catalog := [b101]; available_book_ids := {["B101"]}; issued_records := ∅ |} in
  issued_records l = ∅ /\
  result display_available_books (Build_World l empty_disk [] []) = Returned () /\
  said display_available_books (Build_World l empty_disk [] [])
    = [MsgDisplayHeader; MsgTotalAvailable 1; MsgBookLine 1 b101].
Proof.
  intros b101 l.
  pose proof (display_no_issued_records l empty_disk [] [] eq_refl) as H.
  split; [reflexivity|]. split; [exact (proj1 (proj2 (proj2 H)))|].
  exact (proj2 (proj2 (proj2 H))).
Defined.

(** C9.  If every book id is in at most one student's set, this is still
    so after [add_book], [issue_book], [return_book] and
    [display_available_books], whatever the input. *)
Theorem single_holder_preserved w :
  single_holder (issued_records (self w)) ->
  single_holder (issued_records (self (exec add_book w))) /\
  single_holder (issued_records (self (exec issue_book w))) /\
  single_holder (issued_records (self (exec return_book w))) /\
  single_holder (issued_records (self (exec display_available_books w))).
Proof.
  intros Hinv. repeat split.
  - destruct (add_book_self w) as [->|[book [_ ->]]]; done.
  - destruct (issue_book_self w) as [->|[s [b [_ [Hfree ->]]]]]; [done|].
    apply single_holder_issue; [done|]. by apply is_issued_false.
  - destruct (return_book_self w) as [->|[s [b [X [HX [_ ->]]]]]]; [done|].
    by apply single_holder_return.
  - by rewrite display_self.
Qed.

Lemma single_holder_preserved_witness :
  single_holder {["S101" := {["B101"]}]} /\
  single_holder
    (issued_records (self (exec issue_book
       (Build_World
          {| catalog := [{| id := "B102"; title := "T"; author := "A" |}];
             available_book_ids := {["B102"]};
             issued_records := {["S101" := {["B101"]}]} |}
          empty_disk ["s102"; "b102"] [])))).
Proof.
  assert (H : single_holder {["S101" := {["B101"]}]}).
  { intros s1 s2 X1 X2 b H1 H2 _ _.
    apply lookup_singleton_Some in H1 as [<- _].
    apply lookup_singleton_Some in H2 as [<- _]. reflexivity. }
  split; [exact H|].
  exact (proj1 (proj2 (single_holder_preserved
    (Build_World
       {| catalog := [{| id := "B102"; title := "T"; author := "A" |}];
          available_book_ids := {["B102"]};
          issued_records := {["S101" := {["B101"]}]} |}
       empty_disk ["s102"; "b102"] []) H))).
Defined.

(** C10.  [issue_book] and [return_book] leave the catalog and the set of
    available ids as they were, and [add_book] leaves the issued records
    as they were, whatever the input and whether they succeed, fail or
    run out of input. *)
Theorem frame_effect w :
  (catalog (self (exec issue_book w)) = catalog (self w) /\
   available_book_ids (self (exec issue_book w)) = available_book_ids (self w)) /\
  (catalog (self (exec return_book w)) = catalog (self w) /\
   available_book_ids (self (exec return_book w)) = available_book_ids (self w)) /\
  issued_records (self (exec add_book w)) = issued_records (self w).
Proof.
  split; [|split].
  - destruct (issue_book_self w) as [->|[s [b [_ [_ ->]]]]]; done.
  - destruct (return_book_self w) as [->|[s [b [X [_ [_ ->]]]]]]; done.
  - destruct (add_book_self w) as [->|[book [_ ->]]]; done.
Qed.

End Specification.


(** * Further properties of the code *)

(** ** End of input, and what is written where *)

Section Edges.

Implicit Types (l : Library) (d : Disk) (w : World) (out : list message)
  (records : gmap string (gset string)) (X : gset string).

(** What a run of [add_book] can end in. *)
Lemma add_book_ends w :
  (result add_book w = Raised EOFError /\
   self (exec add_book w) = self w /\ disk (exec add_book w) = disk w /\
   stdin (exec add_book w) = []) \/
  (result add_book w = Returned () /\
   length (stdin (exec add_book w)) + 3 <= length (stdin w) /\
   io_error (disk (exec add_book w)) = io_error (disk w) /\
   forall path, path ≠ BOOK_CATALOG_FILE ->
     files (disk (exec add_book w)) !! path = files (disk w) !! path).
Proof.
  destruct w as [l d kb out]. unfold exec, result. rewrite add_book_run.
  destruct (ask_book_id (available_book_ids l) kb) as [msgs [[book_id pending]|]] eqn:E;
    [|by left].
  apply ask_book_id_rest in E.
  destruct pending as [|rt [|ra rest]]; [by left..|].
  right. cbn in *. destruct (io_error d) eqn:Hio; cbn; split_and!; try done; try lia.
  intros path Hpath. by rewrite lookup_insert_ne.
Qed.

Lemma issue_book_ends w :
  (result issue_book w = Raised EOFError /\
   self (exec issue_book w) = self w /\ disk (exec issue_book w) = disk w /\
   stdin (exec issue_book w) = []) \/
  (result issue_book w = Returned () /\
   length (stdin (exec issue_book w)) + 2 = length (stdin w) /\
   io_error (disk (exec issue_book w)) = io_error (disk w) /\
   forall path, path ≠ ISSUED_RECORDS_FILE ->
     files (disk (exec issue_book w)) !! path = files (disk w) !! path).
Proof.
  destruct w as [l d [|rs [|rb rest]] out]; [by left..|].
  right. unfold exec, result. rewrite issue_book_run. cbn.
  destruct (book_exists l _); cbn; [|split_and!; (done || lia)].
  destruct (is_issued l _); cbn; [split_and!; (done || lia)|].
  destruct (io_error d) eqn:Hio; cbn; split_and!; try done; try lia.
  all: intros path Hpath; by rewrite lookup_insert_ne.
Qed.

Lemma return_book_ends w :
  (result return_book w = Raised EOFError /\
   self (exec return_book w) = self w /\ disk (exec return_book w) = disk w /\
   stdin (exec return_book w) = []) \/
  (result return_book w = Returned () /\
   length (stdin (exec return_book w)) + 2 = length (stdin w) /\
   io_error (disk (exec return_book w)) = io_error (disk w) /\
   forall path, path ≠ ISSUED_RECORDS_FILE ->
     files (disk (exec return_book w)) !! path = files (disk w) !! path).
Proof.
  destruct w as [l d [|rs [|rb rest]] out]; [by left..|].
  right. unfold exec, result. rewrite return_book_run. cbn.
  destruct (issued_records l !! _) as [X|]; cbn; [|split_and!; (done || lia)].
  destruct (decide (_ ∈ X)); cbn; [|split_and!; (done || lia)].
  destruct (io_error d) eqn:Hio; cbn; split_and!; try done; try lia.
  all: intros path Hpath; by rewrite lookup_insert_ne.
Qed.

Lemma display_ends w :
  result display_available_books w = Returned () /\
  self (exec display_available_books w) = self w /\
  disk (exec display_available_books w) = disk w /\
  stdin (exec display_available_books w) = stdin w.
Proof. destruct w as [l d kb out]. unfold exec, result. by rewrite display_run. Qed.


(** X2.  The features write nothing but their own file: [add_book] leaves
    every file but books.txt as it was, [issue_book] and [return_book]
    every file but issued_books.txt, and [display_available_books] and the
    start of the program leave the whole disk as it was. *)
Theorem files_written w path :
  (path ≠ BOOK_CATALOG_FILE ->
   files (disk (exec add_book w)) !! path = files (disk w) !! path) /\
  (path ≠ ISSUED_RECORDS_FILE ->
   files (disk (exec issue_book w)) !! path = files (disk w) !! path /\
   files (disk (exec return_book w)) !! path = files (disk w) !! path) /\
  disk (exec display_available_books w) = disk w /\
  disk (start (disk w) (stdin w)) = disk w.
Proof.
  split_and!.
  - intros Hp. destruct (add_book_ends w) as [[_ [_ [-> _]]]|[_ [_ [_ H]]]]; [done|].
    by apply H.
  - intros Hp. split.
    + destruct (issue_book_ends w) as [[_ [_ [-> _]]]|[_ [_ [_ H]]]]; [done|]. by apply H.
    + destruct (return_book_ends w) as [[_ [_ [-> _]]]|[_ [_ [_ H]]]]; [done|]. by apply H.
  - apply display_ends.
  - destruct w as [l d kb out]. cbn [disk stdin].
    unfold start, exec, __init__, _load_catalog, _load_issued_records. unfold_M. cbn.
    destruct (files d !! BOOK_CATALOG_FILE) as [c|] eqn:Hc;
      destruct (files d !! ISSUED_RECORDS_FILE) as [r|] eqn:Hr;
      destruct (io_error d) eqn:Hio; cbn;
      repeat (rewrite ?Hc, ?Hr, ?Hio; cbn); done.
Qed.

End Edges.


(** ** Invariants of the library *)

Section Kept.

Implicit Types (l : Library) (d : Disk) (w : World) (out : list message)
  (records : gmap string (gset string)) (X : gset string).

(** A property of the library that each feature keeps holds in every world
    that follows. *)
Lemma follows_keeps (P : Library -> Prop) :
  (forall w, P (self w) -> P (self (exec add_book w))) ->
  (forall w, P (self w) -> P (self (exec issue_book w))) ->
  (forall w, P (self w) -> P (self (exec return_book w))) ->
  forall w w', follows w w' -> P (self w) -> P (self w').
Proof.
  intros Hadd Hissue Hreturn w w' Hf Hw.
  induction Hf as [|w' _ IH|w' _ IH|w' _ IH|w' _ IH];
    [done|by apply Hadd| |by apply Hissue|by apply Hreturn].
  by rewrite display_self.
Qed.

Lemma mirrors_add w : mirrors (self w) -> mirrors (self (exec add_book w)).
Proof.
  unfold mirrors. intros Hm. destruct (add_book_self w) as [->|[book [_ ->]]]; [done|].
  cbn. rewrite fmap_app, list_to_set_app_L, <- Hm. cbn. by rewrite union_empty_r_L.
Qed.

Lemma mirrors_issue w : mirrors (self w) -> mirrors (self (exec issue_book w)).
Proof.
  unfold mirrors. intros Hm. by destruct (issue_book_self w) as [->|[s [b [_ [_ ->]]]]].
Qed.

Lemma mirrors_return w : mirrors (self w) -> mirrors (self (exec return_book w)).
Proof.
  unfold mirrors. intros Hm.
  by destruct (return_book_self w) as [->|[s [b [X [_ [_ ->]]]]]].
Qed.

(** X3.  In every state of the program [available_book_ids] is the set of
    the ids of the catalog: [__init__] builds it so and [add_book] adds to
    both. *)
Theorem reachable_mirrors w : reachable w -> mirrors (self w).
Proof.
  induction 1 as [d kb|w _ IH|w _ IH|w _ IH|w _ IH].
  - by rewrite start_self.
  - by apply mirrors_add.
  - by rewrite display_self.
  - by apply mirrors_issue.
  - by apply mirrors_return.
Qed.

Lemma reachable_mirrors_witness :
  mirrors (self (exec add_book (start empty_disk ["b101"; "python guide"; "g v"]))).
Proof. apply reachable_mirrors. apply reach_add, reach_start. Defined.

(** X4.  Ids stay unique: when the ids of the catalog are all different and
    [available_book_ids] holds them, they are all different in every world
    that follows, whatever is typed. *)
Theorem unique_ids_kept w w' :
  follows w w' ->
  mirrors (self w) -> NoDup (id <$> catalog (self w)) ->
  NoDup (id <$> catalog (self w')).
Proof.
  intros Hf Hm Hu.
  refine (proj2 (follows_keeps (fun l => mirrors l /\ NoDup (id <$> catalog l))
                   _ _ _ w w' Hf (conj Hm Hu))).
  - intros w0 [Hm0 Hu0]. split; [by apply mirrors_add|].
    destruct (add_book_self w0) as [->|[book [Hfresh ->]]]; [done|].
    cbn. rewrite fmap_app. apply NoDup_app. split; [done|]. split.
    + intros x Hx Hx'. apply list_elem_of_singleton in Hx'. subst x.
      apply Hfresh. rewrite Hm0. by apply elem_of_list_to_set.
    + apply NoDup_singleton.
  - intros w0 [Hm0 Hu0]. split; [by apply mirrors_issue|].
    by destruct (issue_book_self w0) as [->|[s [b [_ [_ ->]]]]].
  - intros w0 [Hm0 Hu0]. split; [by apply mirrors_return|].
    by destruct (return_book_self w0) as [->|[s [b [X [_ [_ ->]]]]]].
Qed.

Lemma unique_ids_kept_witness :
  let w := start empty_disk ["b101"; "python guide"; "g v"; "B101"; "b102"; "t"; "a"] in
  NoDup (id <$> catalog (self (exec add_book (exec add_book w)))).
Proof.
  intros w. apply (unique_ids_kept w).
  - apply follows_add, follows_add, follows_refl.
  - unfold mirrors, w. by rewrite start_self.
  - vm_compute. constructor.
Defined.

(** X5.  Only catalog books are issued: when every issued book is in the
    catalog, it is so in every world that follows ([issue_book] refuses an
    id the catalog does not have, and no feature removes a book). *)
Theorem issued_in_catalog_kept w w' :
  follows w w' -> issued_in_catalog (self w) -> issued_in_catalog (self w').
Proof.
  intros Hf. apply (follows_keeps issued_in_catalog); [| | |done]; clear.
  - intros w Hinv. destruct (add_book_self w) as [->|[book [_ ->]]]; [done|].
    intros b Hb. cbn in *. rewrite fmap_app. apply elem_of_app. left. by apply Hinv.
  - intros w Hinv. destruct (issue_book_self w) as [->|[s [b [Hex [_ ->]]]]]; [done|].
    intros b' [s' [X [HX Hb']]]. cbn in *.
    destruct (decide (s' = s)) as [->|Hs].
    + rewrite lookup_insert_eq in HX. injection HX as <-.
      apply elem_of_union in Hb' as [Hb'|Hb'].
      * apply Hinv. exists s. destruct (issued_records (self w) !! s) as [Y|]; cbn in Hb'.
        -- by exists Y.
        -- by apply not_elem_of_empty in Hb'.
      * apply elem_of_singleton in Hb' as ->.
        apply book_exists_true in Hex as [book [Hin <-]].
        apply list_elem_of_fmap. by exists book.
    + rewrite lookup_insert_ne in HX by done. apply Hinv. by exists s', X.
  - intros w Hinv.
    destruct (return_book_self w) as [->|[s [b [X [HX [_ ->]]]]]]; [done|].
    intros b' [s' [X' [HX' Hb']]]. cbn in *. apply Hinv.
    destruct (decide (X ∖ {[b]} = ∅)).
    + apply lookup_delete_Some in HX' as [_ HX']. by exists s', X'.
    + destruct (decide (s' = s)) as [->|Hs].
      * rewrite lookup_insert_eq in HX'. injection HX' as <-.
        apply elem_of_difference in Hb' as [Hb' _]. by exists s, X.
      * rewrite lookup_insert_ne in HX' by done. by exists s', X'.
Qed.

Lemma issued_in_catalog_kept_witness :
  let w := start empty_disk ["b101"; "python guide"; "g v"; "s101"; "b101"] in
  issued_in_catalog (self (exec issue_book (exec add_book w))).
Proof.
  intros w. apply (issued_in_catalog_kept w).
  - apply follows_issue, follows_add, follows_refl.
  - intros b [s [X [H _]]]. vm_compute in H. discriminate.
Defined.

(** The invariant of the entries, on a state where a student has returned
    the only book issued. *)
Lemma reachable_no_empty_entry_witness :
  no_empty_entry
    (issued_records
       (self (exec return_book (exec issue_book
          (start {| files := {[BOOK_CATALOG_FILE := "B101|Python Guide|G V"]};
                    io_error := false |}
                 ["s101"; "b101"; "s101"; "b101"]))))).
Proof. apply reachable_no_empty_entry. apply reach_return, reach_issue, reach_start. Defined.

End Kept.


(** ** How the features compose *)

Section Composition.

Implicit Types (l : Library) (d : Disk) (w : World) (out : list message)
  (records : gmap string (gset string)) (X : gset string).

Lemma held_issue records s b b' :
  held (<[s := default ∅ (records !! s) ∪ {[b]}]> records) b' <->
  held records b' \/ b' = b.
Proof.
  unfold held. split.
  - intros [s' [X [HX Hb']]]. destruct (decide (s' = s)) as [->|Hs].
    + rewrite lookup_insert_eq in HX. injection HX as <-.
      apply elem_of_union in Hb' as [Hb'|Hb'].
      * left. exists s. destruct (records !! s) as [Y|]; cbn in Hb'.
        -- by exists Y.
        -- by apply not_elem_of_empty in Hb'.
      * right. by apply elem_of_singleton in Hb'.
    + rewrite lookup_insert_ne in HX by done. left. by exists s', X.
  - intros [[s' [X [HX Hb']]]| ->].
    + destruct (decide (s' = s)) as [->|Hs].
      * exists s, (default ∅ (records !! s) ∪ {[b]}). rewrite lookup_insert_eq.
        split; [done|]. rewrite HX. cbn. apply elem_of_union. by left.
      * exists s', X. by rewrite lookup_insert_ne.
    + exists s, (default ∅ (records !! s) ∪ {[b]}). rewrite lookup_insert_eq.
      split; [done|]. apply elem_of_union. right. by apply elem_of_singleton.
Qed.

Lemma fst_fmap_entries {A B} (f : A -> B) (entries : list (string * A)) :
  ((fun e => (e.1, f e.2)) <$> entries).*1 = entries.*1.
Proof. induction entries as [|[s a] entries IH]; [done|]. cbn. by rewrite IH. Qed.



(** The world a successful [issue_book] leaves. *)
Lemma issue_book_done l d out rs rb rest :
  let s := Str.upper (Str.strip rs) in
  let b := Str.upper (Str.strip rb) in
  book_exists l b = true -> is_issued l b = false ->
  exists d' tail,
    issue_book (Build_World l d (rs :: rb :: rest) out) =
      (Returned (),
       Build_World
         (set_issued_records
            (<[s := default ∅ (issued_records l !! s) ∪ {[b]}]> (issued_records l)) l)
         d' rest
         (out ++ [MsgIssueHeader; Prompt "Enter Student ID: ";
                  Prompt "Enter Book ID to issue: "; MsgBookIssued b s; tail])) /\
    (io_error d = true -> d' = d /\ tail = MsgErrorSavingIssued) /\
    (io_error d = false ->
     tail = MsgIssuedSaved /\ io_error d' = false /\
     files d' = <[ISSUED_RECORDS_FILE :=
                    issued_records_text
                      (<[s := default ∅ (issued_records l !! s) ∪ {[b]}]> (issued_records l))]>
                  (files d)).
Proof.
  intros s b Hex Hfree. rewrite issue_book_run. fold s b. rewrite Hex, Hfree. cbn.
  destruct (io_error d) eqn:Hio; eexists _, _; (split; [norm_out; reflexivity|]);
    split; intros; try done.
Qed.



(** X7.  A book cannot be issued twice: after [issue_book] has reported the
    issue of a book, [issue_book] for that book, whoever the student,
    prints the already-issued error and leaves the library and the disk as
    they are. *)
Theorem issue_book_twice l d out rs rb rs' rb' rest :
  let s := Str.upper (Str.strip rs) in
  let b := Str.upper (Str.strip rb) in
  let w := Build_World l d (rs :: rb :: rs' :: rb' :: rest) out in
  let w1 := exec issue_book w in
  Str.upper (Str.strip rb') = b ->
  MsgBookIssued b s ∈ said issue_book w ->
  said issue_book w1 =
    [MsgIssueHeader; Prompt "Enter Student ID: "; Prompt "Enter Book ID to issue: ";
     MsgBookAlreadyIssued b] /\
  self (exec issue_book w1) = self w1 /\ disk (exec issue_book w1) = disk w1.
Proof.
  intros s b w w1 Hb Hok. subst w w1.
  apply issue_book_said in Hok as [Hex Hfree]. fold b in Hex, Hfree.
  destruct (issue_book_done l d out rs rb (rs' :: rb' :: rest) Hex Hfree)
    as [d' [tail [Hrun _]]].
  fold s b in Hrun. unfold said, exec. rewrite Hrun. cbn [snd stdout].
  rewrite issue_book_run. rewrite Hb. cbn [catalog set_issued_records].
  assert (Hex' : forall m, book_exists (set_issued_records m l) b = true) by done.
  rewrite Hex'. cbn [negb].
  assert (His : is_issued
                  (set_issued_records
                     (<[s := default ∅ (issued_records l !! s) ∪ {[b]}]>
                        (issued_records l)) l) b = true).
  { apply is_issued_true. cbn. apply held_issue. by right. }
  rewrite His. cbn [snd self disk stdout]. split; [|done].
  by rewrite <- app_assoc, drop_app_length.
Qed.

Lemma issue_book_twice_witness :
  let l := {| catalog := [{| id := "B101"; title := "Python Guide"; author := "G V" |}];
              available_book_ids := {["B101"]};
              issued_records := ∅ |} in
  let w := Build_World l empty_disk ["s101"; "b101"; "s102"; " B101"] [] in
  MsgBookIssued "B101" "S101" ∈ said issue_book w /\
  said issue_book (exec issue_book w) =
    [MsgIssueHeader; Prompt "Enter Student ID: "; Prompt "Enter Book ID to issue: ";
     MsgBookAlreadyIssued "B101"].
Proof.
  intros l w.
  assert (Hok : MsgBookIssued "B101" "S101" ∈ said issue_book w).
  { apply (issue_book_said l empty_disk [] "s101" "b101"). split; reflexivity. }
  split; [exact Hok|].
  exact (proj1 (issue_book_twice l empty_disk [] "s101" "b101" "s102" " B101" []
                  eq_refl Hok)).
Defined.

(** [return_book] reports success exactly when the student's set has the
    book. *)
Lemma return_book_said l d out rs rb rest :
  let s := Str.upper (Str.strip rs) in
  let b := Str.upper (Str.strip rb) in
  MsgBookReturned b s ∈ said return_book (Build_World l d (rs :: rb :: rest) out) <->
  exists X, issued_records l !! s = Some X /\ b ∈ X.
Proof.
  intros s b. unfold said, exec. rewrite return_book_run. fold s b. cbn [snd].
  destruct (issued_records l !! s) as [X|]; [destruct (decide (b ∈ X))|]; cbn [stdout].
  - split; [by exists X|intros _].
    destruct (io_error d); cbn [stdout]; rewrite <- app_assoc, drop_app_length;
      repeat constructor.
  - rewrite <- app_assoc, drop_app_length. cbn. split.
    + intros H. repeat (apply elem_of_cons in H as [H|H]; [discriminate|]).
      by apply elem_of_nil in H.
    + by intros [Y [[= <-] ?]].
  - rewrite <- app_assoc, drop_app_length. cbn. split.
    + intros H. repeat (apply elem_of_cons in H as [H|H]; [discriminate|]).
      by apply elem_of_nil in H.
    + by intros [Y [? ?]].
Qed.

(** X8.  A book cannot be returned twice: after [return_book] has reported
    the return of a book by a student, [return_book] for the same student
    and book prints one of its two errors (no records when that was the
    student's last book, not issued to the student otherwise) and leaves
    the library and the disk as they are. *)
Theorem return_book_twice l d out rs rb rs' rb' rest :
  let s := Str.upper (Str.strip rs) in
  let b := Str.upper (Str.strip rb) in
  let w := Build_World l d (rs :: rb :: rs' :: rb' :: rest) out in
  let w1 := exec return_book w in
  Str.upper (Str.strip rs') = s ->
  Str.upper (Str.strip rb') = b ->
  MsgBookReturned b s ∈ said return_book w ->
  (said return_book w1 =
     [MsgReturnHeader; Prompt "Enter Student ID: "; Prompt "Enter Book ID to return: ";
      if decide (s ∈ dom (issued_records (self w1)))
      then MsgBookNotIssuedToStudent b s else MsgStudentHasNoRecords s]) /\
  self (exec return_book w1) = self w1 /\ disk (exec return_book w1) = disk w1.
Proof.
  intros s b w w1 Hs Hb Hok. subst w w1.
  apply return_book_said in Hok as [X [HX HbX]]. fold s b in HX, HbX.
  assert (Hrun : exists d' out',
             exec return_book (Build_World l d (rs :: rb :: rs' :: rb' :: rest) out)
             = Build_World
                 (set_issued_records
                    (if decide (X ∖ {[b]} = ∅) then delete s (issued_records l)
                     else <[s := X ∖ {[b]}]> (issued_records l)) l)
                 d' (rs' :: rb' :: rest) out').
  { unfold exec. rewrite return_book_run. fold s b. rewrite HX.
    destruct (decide (b ∈ X)) as [_|]; [|done]. cbn.
    destruct (io_error d); by eexists _, _. }
  destruct Hrun as [d' [out' ->]]. unfold said, exec. rewrite return_book_run.
  rewrite Hs, Hb. cbn [self issued_records set_issued_records snd].
  destruct (decide (X ∖ {[b]} = ∅)) as [He|Hne].
  - rewrite lookup_delete_eq. cbn [snd self disk stdout].
    rewrite decide_False by (apply not_elem_of_dom, lookup_delete_eq).
    split; [|done]. by rewrite <- app_assoc, drop_app_length.
  - rewrite lookup_insert_eq.
    destruct (decide (b ∈ X ∖ {[b]})) as [Hin|_].
    { apply elem_of_difference in Hin as [_ Hin]. destruct Hin. by apply elem_of_singleton. }
    cbn [snd self disk stdout].
    rewrite decide_True by (apply elem_of_dom; by rewrite lookup_insert_eq).
    split; [|done]. by rewrite <- app_assoc, drop_app_length.
Qed.

Lemma return_book_twice_witness :
  let l := {| catalog := [{| id := "B101"; title := "Python Guide"; author := "G V" |}];
              available_book_ids := {["B101"]};
              issued_records := {["S101" := {["B101"]}]} |} in
  let w := Build_World l empty_disk ["s101"; "b101"; "s101"; "b101"] [] in
  MsgBookReturned "B101" "S101" ∈ said return_book w /\
  self (exec return_book (exec return_book w)) = self (exec return_book w).
Proof.
  intros l w.
  assert (Hok : MsgBookReturned "B101" "S101" ∈ said return_book w).
  { apply (return_book_said l empty_disk [] "s101" "b101"). exists {["B101"]}.
    split; [reflexivity|]. by apply elem_of_singleton. }
  split; [exact Hok|].
  exact (proj1 (proj2 (return_book_twice l empty_disk [] "s101" "b101" "s101" "b101" []
                         eq_refl eq_refl Hok))).
Defined.

End Composition.


(** ** Adding, then using the book *)

Section Adding.

Implicit Types (l : Library) (d : Disk) (w : World) (out : list message)
  (records : gmap string (gset string)) (X : gset string) (s t : string) (c : ascii).

Lemma char_cases c :
  Str.isspace (Str.toupper c) = Str.isspace c /\
  Str.toupper (Str.toupper c) = Str.toupper c.
Proof. by destruct c as [[] [] [] [] [] [] [] []]. Qed.

Lemma upper_cons c s : Str.upper (String c s) = String (Str.toupper c) (Str.upper s).
Proof. reflexivity. Qed.

Lemma upper_upper s : Str.upper (Str.upper s) = Str.upper s.
Proof.
  induction s as [|c s IH]; [done|]. by rewrite !upper_cons, IH, (proj2 (char_cases c)).
Qed.

Lemma lstrip_upper s : Str.lstrip (Str.upper s) = Str.upper (Str.lstrip s).
Proof.
  induction s as [|c s IH]; [done|]. rewrite upper_cons. cbn.
  rewrite (proj1 (char_cases c)). destruct (Str.isspace c); [done|]. by rewrite upper_cons.
Qed.

Lemma rstrip_upper s : Str.rstrip (Str.upper s) = Str.upper (Str.rstrip s).
Proof.
  induction s as [|c s IH]; [done|]. rewrite upper_cons. cbn.
  rewrite IH, (proj1 (char_cases c)).
  assert (E : Str.is_empty (Str.upper (Str.rstrip s)) = Str.is_empty (Str.rstrip s)).
  { by destruct (Str.rstrip s). }
  rewrite E. destruct (Str.is_empty (Str.rstrip s) && Str.isspace c); [done|].
  by rewrite upper_cons.
Qed.

Lemma strip_upper s : Str.strip (Str.upper s) = Str.upper (Str.strip s).
Proof. unfold Str.strip. by rewrite lstrip_upper, rstrip_upper. Qed.

Lemma lstrip_lstrip s : Str.lstrip (Str.lstrip s) = Str.lstrip s.
Proof.
  induction s as [|c s IH]; [done|]. cbn. destruct (Str.isspace c) eqn:E; [done|].
  cbn. by rewrite E.
Qed.

Lemma rstrip_rstrip s : Str.rstrip (Str.rstrip s) = Str.rstrip s.
Proof.
  induction s as [|c s IH]; [done|]. cbn.
  destruct (Str.is_empty (Str.rstrip s) && Str.isspace c) eqn:E; [done|].
  cbn. by rewrite IH, E.
Qed.

Lemma lstrip_rstrip s : Str.lstrip s = s -> Str.lstrip (Str.rstrip s) = Str.rstrip s.
Proof.
  destruct s as [|c s]; [done|]. cbn. destruct (Str.isspace c) eqn:E.
  - intros H. pose proof (lstrip_length s) as Hl. rewrite H in Hl. cbn in Hl. lia.
  - intros _. rewrite andb_false_r. cbn. by rewrite E.
Qed.

Lemma strip_strip s : Str.strip (Str.strip s) = Str.strip s.
Proof.
  unfold Str.strip. rewrite lstrip_rstrip by apply lstrip_lstrip. apply rstrip_rstrip.
Qed.

Lemma isascii_lstrip s : Str.isascii s = true -> Str.isascii (Str.lstrip s) = true.
Proof.
  induction s as [|c s IH]; [done|]. intros H. cbn [Str.lstrip].
  destruct (Str.isspace c); [|done]. cbn [Str.isascii] in H.
  apply andb_prop in H as [_ H]. by apply IH.
Qed.

Lemma isascii_rstrip s : Str.isascii s = true -> Str.isascii (Str.rstrip s) = true.
Proof.
  induction s as [|c s IH]; [done|]. intros H. cbn [Str.rstrip].
  cbn [Str.isascii] in H. apply andb_prop in H as [Hc H].
  destruct (Str.is_empty (Str.rstrip s) && Str.isspace c); [done|].
  cbn [Str.isascii]. by rewrite Hc, IH.
Qed.

Lemma isascii_upper s : Str.isascii s = true -> Str.isascii (Str.upper s) = true.
Proof.
  induction s as [|c s IH]; [done|]. intros H. rewrite upper_cons.
  cbn [Str.isascii] in H |- *. apply andb_prop in H as [Hc H]. rewrite (IH H), andb_true_r.
  revert Hc. by destruct c as [[] [] [] [] [] [] [] []].
Qed.

(** X9.  Ids are stored in a normal form.  For an id typed in ASCII, the
    id in upper case and trimmed is ASCII again, and putting it in upper
    case and trimming it a second time changes nothing, so that a stored
    id, typed as it is shown, names the same book or student. *)
Theorem normal_id_fixed s :
  Str.isascii s = true ->
  Str.isascii (Str.upper (Str.strip s)) = true /\
  Str.upper (Str.strip (Str.upper (Str.strip s))) = Str.upper (Str.strip s).
Proof.
  intros H. split.
  - by apply isascii_upper, isascii_rstrip, isascii_lstrip.
  - by rewrite strip_upper, strip_strip, upper_upper.
Qed.

Lemma normal_id_fixed_witness :
  Str.upper (Str.strip " b101 ") = "B101" /\
  Str.upper (Str.strip (Str.upper (Str.strip " b101 "))) = "B101".
Proof.
  split; [reflexivity|].
  by rewrite (proj2 (normal_id_fixed " b101 " eq_refl)).
Defined.

(** The world a successful [add_book] leaves. *)
Lemma add_book_done l d out raw_id raw_title raw_author rest :
  let book := {| id := Str.upper (Str.strip raw_id);
                 title := Str.title (Str.strip raw_title);
                 author := Str.title (Str.strip raw_author) |} in
  id book ∉ available_book_ids l ->
  exists d' out',
    add_book (Build_World l d (raw_id :: raw_title :: raw_author :: rest) out) =
      (Returned (),
       Build_World {| catalog := catalog l ++ [book];
                      available_book_ids := available_book_ids l ∪ {[id book]};
                      issued_records := issued_records l |}
                   d' rest out').
Proof.
  intros book Hfresh. rewrite add_book_run. cbn [ask_book_id].
  rewrite decide_False by done. cbn zeta iota beta.
  destruct (io_error d); by eexists _, _.
Qed.



(** X11.  A book that [add_book] has just added can be issued: when nobody
    holds a book of that id, [issue_book] given the id, by whatever
    student, reports the issue, and the student holds the book. *)
Theorem add_then_issue l d out raw_id raw_title raw_author rs rb rest :
  let book_id := Str.upper (Str.strip raw_id) in
  let s := Str.upper (Str.strip rs) in
  let w := Build_World l d (raw_id :: raw_title :: raw_author :: rs :: rb :: rest) out in
  let w1 := exec add_book w in
  book_id ∉ available_book_ids l ->
  ~ held (issued_records l) book_id ->
  Str.upper (Str.strip rb) = book_id ->
  MsgBookIssued book_id s ∈ said issue_book w1 /\
  (exists X, issued_records (self (exec issue_book w1)) !! s = Some X /\ book_id ∈ X).
Proof.
  intros book_id s w w1 Hfresh Hfree Hsame. subst w w1.
  destruct (add_book_done l d out raw_id raw_title raw_author (rs :: rb :: rest) Hfresh)
    as [d' [out' Hrun]].
  set (l1 := {| catalog := _ |}) in Hrun.
  assert (Hw1 : exec add_book
                  (Build_World l d (raw_id :: raw_title :: raw_author :: rs :: rb :: rest) out)
                = Build_World l1 d' (rs :: rb :: rest) out').
  { unfold exec. by rewrite Hrun. }
  rewrite Hw1. clear Hrun Hw1.
  assert (Hex : book_exists l1 (Str.upper (Str.strip rb)) = true).
  { apply book_exists_true.
    exists {| id := book_id; title := Str.title (Str.strip raw_title);
              author := Str.title (Str.strip raw_author) |}.
    split; [|by rewrite Hsame].
    cbn. apply elem_of_app. right. by apply list_elem_of_singleton. }
  assert (His : is_issued l1 (Str.upper (Str.strip rb)) = false).
  { apply is_issued_false. by rewrite Hsame. }
  split.
  - rewrite <- Hsame. apply issue_book_said. by split.
  - destruct (issue_book_done l1 d' out' rs rb rest Hex His) as [d2 [tail [Hrun2 _]]].
    unfold exec. rewrite Hrun2. cbn [snd self issued_records set_issued_records].
    eexists. rewrite lookup_insert_eq. split; [done|]. rewrite Hsame.
    apply elem_of_union. right. by apply elem_of_singleton.
Qed.

Lemma add_then_issue_witness :
  let w := Build_World empty_library empty_disk
             ["b101"; "python guide"; "g v"; "s101"; "B101"] [] in
  MsgBookIssued "B101" "S101" ∈ said issue_book (exec add_book w).
Proof.
  intros w.
  refine (proj1 (add_then_issue empty_library empty_disk []
            "b101" "python guide" "g v" "s101" "B101" [] _ _ eq_refl)).
  - cbn [available_book_ids empty_library]. apply not_elem_of_empty.
  - intros [s [X [H _]]]. cbn in H. by rewrite lookup_empty in H.
Defined.

End Adding.


(** ** The catalog file *)

Section CatalogFile.

Implicit Types (l : Library) (s t : string) (c : ascii).

Lemma split_length sep s : length (Str.split sep s) = S (count_char sep s).
Proof.
  induction s as [|x s IH]; [done|]. cbn.
  destruct (Ascii.eqb x sep); cbn; [by rewrite IH|].
  destruct (split_cons sep s) as [piece [pieces E]]. rewrite E in *. by cbn in *.
Qed.

Lemma count_char_app c s t :
  count_char c (s ++ t)%string = count_char c s + count_char c t.
Proof.
  induction s as [|x s IH]; [by rewrite append_nil_l|].
  rewrite append_cons. cbn. rewrite IH. lia.
Qed.

Lemma free_of_count c s : free_of c s = true <-> count_char c s = 0.
Proof.
  induction s as [|x s IH]; [done|]. cbn. destruct (Ascii.eqb x c); cbn; [done|].
  exact IH.
Qed.

(** The pieces [split] gives have no separator, and no character the text
    did not have. *)
Lemma split_pieces_free sep c s :
  Forall (fun piece => free_of sep piece = true /\
                       (free_of c s = true -> free_of c piece = true))
         (Str.split sep s).
Proof.
  induction s as [|x s IH]; cbn.
  - by repeat constructor.
  - destruct (Ascii.eqb x sep) eqn:E.
    + constructor; [done|]. eapply Forall_impl; [exact IH|].
      intros piece [H1 H2]. split; [done|]. intros H. apply H2.
      by apply andb_prop in H as [_ H].
    + destruct (split_cons sep s) as [piece [pieces Hs]]. rewrite Hs in *.
      apply Forall_cons in IH as [[H1 H2] IH]. constructor.
      * cbn. rewrite E. cbn. split; [done|]. intros H.
        apply andb_prop in H as [Hx H]. rewrite Hx. cbn. by apply H2.
      * eapply Forall_impl; [exact IH|]. intros p [H3 H4]. split; [done|].
        intros H. apply H4. by apply andb_prop in H as [_ H].
Qed.

Lemma free_of_lstrip c s : free_of c s = true -> free_of c (Str.lstrip s) = true.
Proof.
  induction s as [|x s IH]; [done|]. cbn. intros H.
  apply andb_prop in H as [Hx H]. destruct (Str.isspace x); [by apply IH|].
  cbn. by rewrite Hx, H.
Qed.

Lemma free_of_rstrip c s : free_of c s = true -> free_of c (Str.rstrip s) = true.
Proof.
  induction s as [|x s IH]; [done|]. cbn. intros H.
  apply andb_prop in H as [Hx H].
  destruct (Str.is_empty (Str.rstrip s) && Str.isspace x); [done|].
  cbn. by rewrite Hx, IH.
Qed.

Lemma free_of_strip c s : free_of c s = true -> free_of c (Str.strip s) = true.
Proof. intros H. unfold Str.strip. by apply free_of_rstrip, free_of_lstrip. Qed.

(** A line [for line in f] gives is a text without line end, with or
    without a line feed after it. *)
Lemma lines_from_bodies cur content :
  free_of Str.LF cur = true -> free_of Str.CR cur = true ->
  Forall (fun line => exists body,
            (line = (body ++ String Str.LF "")%string \/ line = body) /\
            free_of Str.LF body = true /\ free_of Str.CR body = true)
         (Str.lines_from cur content).
Proof.
  revert cur. induction content as [|x content IH]; intros cur Hlf Hcr.
  - cbn. destruct (Str.is_empty cur); constructor; [|constructor].
    exists cur. split; [by right|done].
  - assert (Hend : forall rest,
              Forall (fun line => exists body,
                        (line = (body ++ String Str.LF "")%string \/ line = body) /\
                        free_of Str.LF body = true /\ free_of Str.CR body = true)
                     (Str.lines_from "" rest) ->
              Forall (fun line => exists body,
                        (line = (body ++ String Str.LF "")%string \/ line = body) /\
                        free_of Str.LF body = true /\ free_of Str.CR body = true)
                     ((cur ++ String Str.LF "")%string :: Str.lines_from "" rest)).
    { intros rest H. constructor; [|done]. exists cur. split; [by left|done]. }
    cbn [Str.lines_from]. destruct (Ascii.eqb x Str.LF) eqn:E1.
    { apply Hend. by apply IH. }
    destruct (Ascii.eqb x Str.CR) eqn:E2.
    { destruct content as [|x' content'].
      - constructor; [|constructor]. exists cur. split; [by left|done].
      - destruct (Ascii.eqb x' Str.LF) eqn:E3.
        + apply Hend. specialize (IH "" eq_refl eq_refl). cbn [Str.lines_from] in IH.
          rewrite E3 in IH. apply Forall_cons in IH as [_ IH]. exact IH.
        + apply Hend. by apply IH. }
    apply IH; rewrite free_of_app; cbn; by rewrite ?Hlf, ?Hcr, ?E1, ?E2.
Qed.

Lemma line_strip_free content line :
  line ∈ Str.lines content ->
  free_of Str.LF (Str.strip line) = true /\ free_of Str.CR (Str.strip line) = true.
Proof.
  intros Hin. pose proof (lines_from_bodies "" content eq_refl eq_refl) as H.
  rewrite Forall_forall in H. destruct (H line Hin) as [body [[->| ->] [H1 H2]]].
  - assert (E : Str.strip (body ++ String Str.LF "") = Str.strip body).
    { unfold Str.strip. destruct body as [|x body].
      - done.
      - rewrite append_cons. cbn [Str.lstrip]. destruct (Str.isspace x) eqn:Ex.
        + rewrite <- (rstrip_line_feed (Str.lstrip body)).
          clear H1 H2 H Hin. induction body as [|y body IH]; [done|].
          rewrite append_cons. cbn [Str.lstrip]. destruct (Str.isspace y); [exact IH|].
          by rewrite <- append_cons.
        + by rewrite <- append_cons, rstrip_line_feed. }
    rewrite E. split; by apply free_of_strip.
  - split; by apply free_of_strip.
Qed.

(** X12.  [_load_catalog] takes a line when, trimmed, it has exactly two
    separators, and then appends exactly one book, whose fields are
    trimmed and have no separator; every other line, a blank one too, is
    skipped. *)
Theorem catalog_line_accepts (catalog : list Book) line :
  (count_char "|" (Str.strip line) ≠ 2 -> catalog_line catalog line = catalog) /\
  (count_char "|" (Str.strip line) = 2 ->
   exists book,
     catalog_line catalog line = catalog ++ [book] /\ pipe_free book = true /\
     Str.strip (id book) = id book /\ Str.strip (title book) = title book /\
     Str.strip (author book) = author book).
Proof.
  unfold catalog_line. pose proof (split_length "|" (Str.strip line)) as Hlen.
  pose proof (split_pieces_free "|" "|" (Str.strip line)) as Hfree.
  destruct (Str.split "|" (Str.strip line)) as [|p0 [|p1 [|p2 [|p3 ps]]]];
    cbn in Hlen; split; intros Hc; try done; try lia.
  apply Forall_cons in Hfree as [[H0 _] Hfree].
  apply Forall_cons in Hfree as [[H1 _] Hfree].
  apply Forall_cons in Hfree as [[H2 _] _].
  eexists. split; [done|]. unfold pipe_free. cbn.
  rewrite !free_of_strip by done. by rewrite !strip_strip.
Qed.

Lemma catalog_line_accepts_witness :
  catalog_line [] "B101 | Python Guide |G V"
    = [{| id := "B101"; title := "Python Guide"; author := "G V" |}] /\
  catalog_line [] "B101|Python|Guide|G V" = [].
Proof.
  split.
  - destruct (proj2 (catalog_line_accepts [] "B101 | Python Guide |G V") eq_refl)
      as [book [H _]]. rewrite H. vm_compute in H. by rewrite H.
  - exact (proj1 (catalog_line_accepts [] "B101|Python|Guide|G V")
             ltac:(vm_compute; discriminate)).
Defined.

Lemma catalog_line_keeps (catalog : list Book) content line :
  line ∈ Str.lines content ->
  Forall catalog_book catalog -> Forall catalog_book (catalog_line catalog line).
Proof.
  intros Hin Hgood. destruct (line_strip_free content line Hin) as [Hlf Hcr].
  unfold catalog_line.
  pose proof (split_pieces_free "|" "|" (Str.strip line)) as H1.
  pose proof (split_pieces_free "|" Str.LF (Str.strip line)) as H2.
  pose proof (split_pieces_free "|" Str.CR (Str.strip line)) as H3.
  destruct (Str.split "|" (Str.strip line)) as [|p0 [|p1 [|p2 [|p3 ps]]]]; try done.
  apply Forall_app. split; [done|]. constructor; [|constructor].
  assert (Hp : forall p, p ∈ [p0; p1; p2] -> catalog_field (Str.strip p)).
  { intros p Hp. rewrite Forall_forall in H1, H2, H3.
    destruct (H1 p Hp) as [Ha _], (H2 p Hp) as [_ Hb], (H3 p Hp) as [_ Hc].
    unfold catalog_field. rewrite strip_strip, !free_of_strip by auto. done. }
  unfold catalog_book. cbn. split_and!; apply Hp; repeat constructor.
Qed.

(** X13.  Whatever the file holds, the fields of every book
    [_load_catalog] makes of it are trimmed, on one line and without the
    separator, so that the catalog, written by [_save_catalog], is read
    back as it was: loading, saving and loading again gives the catalog of
    the first load. *)
Theorem loaded_catalog_round_trip content :
  Forall catalog_book (parse_catalog content) /\
  parse_catalog (catalog_text (parse_catalog content)) = parse_catalog content.
Proof.
  assert (H : Forall catalog_book (parse_catalog content)).
  { unfold parse_catalog.
    assert (G : forall lines catalog,
              (forall line, line ∈ lines -> line ∈ Str.lines content) ->
              Forall catalog_book catalog ->
              Forall catalog_book (fold_left catalog_line lines catalog)).
    { induction lines as [|line lines IH]; intros catalog Hsub Hc; [done|].
      cbn. apply IH.
      - intros line' Hin. apply Hsub. by right.
      - eapply catalog_line_keeps; [|done]. apply Hsub. by left. }
    by apply G. }
  split; [done|]. by apply parse_catalog_text.
Qed.

Lemma catalog_line_skip (catalog : list Book) line :
  count_char "|" (Str.strip line) ≠ 2 -> catalog_line catalog line = catalog.
Proof.
  unfold catalog_line. pose proof (split_length "|" (Str.strip line)) as Hlen.
  destruct (Str.split "|" (Str.strip line)) as [|p0 [|p1 [|p2 [|p3 ps]]]];
    cbn in Hlen; intros Hc; try done; lia.
Qed.

Lemma catalog_line_of_book (catalog : list Book) book :
  line_book book ->
  catalog_line catalog
    ((id book ++ "|" ++ title book ++ "|" ++ author book) ++ String Str.LF "")%string
  = if pipe_free book then catalog ++ [book] else catalog.
Proof.
  intros Hline. destruct (pipe_free book) eqn:Hp.
  - apply catalog_line_written. unfold pipe_free in Hp.
    apply andb_prop in Hp as [Hp H3]. apply andb_prop in Hp as [H1 H2].
    destruct Hline as [[? [? ?]] [[? [? ?]] [? [? ?]]]].
    unfold catalog_book, catalog_field. by split_and!.
  - apply catalog_line_skip. destruct book as [i t a]. cbn [id title author] in *.
    destruct Hline as [[Hi _] [_ [Ha _]]].
    destruct (strip_fixed i Hi) as [Hil _]. destruct (strip_fixed a Ha) as [_ Har].
    rewrite <- (append_line i t a).
    assert (E : Str.strip (i ++ "|" ++ t ++ "|" ++ a ++ String Str.LF "")%string
                = (i ++ "|" ++ t ++ "|" ++ a)%string).
    { unfold Str.strip. rewrite !append_cons, !append_nil_l.
      rewrite lstrip_before by done. rewrite !rstrip_after by done.
      by rewrite rstrip_line_feed, Har. }
    rewrite E. rewrite !append_cons, !append_nil_l.
    rewrite count_char_app. cbn [count_char]. rewrite count_char_app. cbn.
    unfold pipe_free in Hp. cbn in Hp.
    destruct (free_of "|" i) eqn:E1; [|rewrite <- not_true_iff_false, free_of_count in E1; lia].
    destruct (free_of "|" t) eqn:E2; [|rewrite <- not_true_iff_false, free_of_count in E2; lia].
    destruct (free_of "|" a) eqn:E3; [done|].
    rewrite <- not_true_iff_false, free_of_count in E3. lia.
Qed.

(** X14.  The catalog file does not escape its separator.  When the fields
    of the books are trimmed and on one line ([add_book] trims them), what
    [_load_catalog] reads from what [_save_catalog] wrote is the catalog
    without the books that have the separator in a field: those books are
    lost, the others come back as they were and in order. *)
Theorem catalog_round_trip catalog :
  Forall line_book catalog ->
  parse_catalog (catalog_text catalog) = filter (fun book => pipe_free book = true) catalog.
Proof.
  intros Hgood. unfold parse_catalog, catalog_text.
  assert (Hmap : map (fun book : Book =>
                        (id book ++ "|" ++ title book ++ "|" ++ author book
                         ++ String Str.LF "")%string) catalog
                 = map (fun s => s ++ String Str.LF "")%string
                     (map (fun book : Book =>
                             (id book ++ "|" ++ title book ++ "|" ++ author book)%string)
                          catalog)).
  { rewrite map_map. apply map_ext. intros book. apply append_line. }
  rewrite Hmap, lines_join; clear Hmap.
  - assert (H : forall done_,
              fold_left catalog_line
                (map (fun s => s ++ String Str.LF "")%string
                   (map (fun book : Book =>
                           (id book ++ "|" ++ title book ++ "|" ++ author book)%string)
                        catalog)) done_
              = done_ ++ filter (fun book => pipe_free book = true) catalog).
    { induction Hgood as [|book catalog Hbook _ IH]; intros done_; cbn [map fold_left].
      - by rewrite app_nil_r.
      - rewrite (catalog_line_of_book done_ book Hbook), IH, filter_cons.
        destruct (pipe_free book); [|done].
        rewrite decide_True by done. by rewrite <- app_assoc. }
    apply H.
  - apply Forall_map. eapply Forall_impl; [exact Hgood|].
    intros [i t a] [[_ [Hi1 Hi2]] [[_ [Ht1 Ht2]] [_ [Ha1 Ha2]]]].
    cbn [id title author] in *.
    rewrite !free_of_app, Hi1, Hi2, Ht1, Ht2, Ha1, Ha2. done.
Qed.

Lemma catalog_round_trip_witness :
  let good := {| id := "B101"; title := "Python Guide"; author := "G V" |} in
  let lost := {| id := "B102"; title := "A|B"; author := "C D" |} in
  parse_catalog (catalog_text [lost; good]) = [good].
Proof.
  intros good lost.
  refine (eq_trans (catalog_round_trip [lost; good] _) _).
  - repeat constructor.
  - vm_compute. reflexivity.
Defined.

End CatalogFile.


(** ** The issued-records file *)

Section RecordsFile.

Implicit Types (l : Library) (s t : string) (c : ascii)
  (records : gmap string (gset string)) (X : gset string).

Lemma split_cons_other sep c s :
  Ascii.eqb c sep = false ->
  Str.split sep (String c s) =
    match Str.split sep s with
    | piece :: pieces => String c piece :: pieces
    | [] => [String c EmptyString]
    end.
Proof. intros E. cbn. by rewrite E. Qed.

Lemma free_of_join c sep (pieces : list string) :
  free_of c sep = true -> Forall (fun piece => free_of c piece = true) pieces ->
  free_of c (Str.join sep pieces) = true.
Proof.
  intros Hsep. induction 1 as [|piece pieces Hp _ IH]; [done|].
  destruct pieces as [|piece' pieces]; [done|].
  change (Str.join sep (piece :: piece' :: pieces))
    with (piece ++ sep ++ Str.join sep (piece' :: pieces))%string.
  by rewrite !free_of_app, Hp, Hsep, IH.
Qed.

(** [split] undoes [join] when no piece has the separator. *)
Lemma split_join sep (pieces : list string) :
  pieces ≠ [] -> Forall (fun piece => free_of sep piece = true) pieces ->
  Str.split sep (Str.join (String sep "") pieces) = pieces.
Proof.
  intros Hne Hfree. induction Hfree as [|piece pieces Hp _ IH]; [done|].
  destruct pieces as [|piece' pieces]; [by apply split_free|].
  change (Str.join (String sep "") (piece :: piece' :: pieces))
    with (piece ++ String sep "" ++ Str.join (String sep "") (piece' :: pieces))%string.
  rewrite append_cons, append_nil_l, split_app by done. by rewrite IH.
Qed.

Lemma rstrip_nonempty s : Str.rstrip s = s -> s ≠ EmptyString ->
  Str.is_empty (Str.rstrip s) = false.
Proof. intros -> H. by destruct s. Qed.

(** Trimmed, non-empty ids joined by commas have no white space at the
    end. *)
Lemma rstrip_join (ids : list string) :
  ids ≠ [] ->
  Forall (fun b => Str.rstrip b = b /\ b ≠ EmptyString) ids ->
  Str.rstrip (Str.join "," ids) = Str.join "," ids /\ Str.join "," ids ≠ EmptyString.
Proof.
  intros Hne Hids. induction Hids as [|b ids [Hb Hb'] _ IH]; [done|].
  destruct ids as [|b' ids]; [done|].
  change (Str.join "," (b :: b' :: ids))
    with (b ++ "," ++ Str.join "," (b' :: ids))%string.
  rewrite append_cons, append_nil_l. destruct (IH ltac:(done)) as [IH1 IH2].
  split.
  - rewrite rstrip_after by done. by rewrite IH1.
  - destruct b; [by destruct Hb'|done].
Qed.

(** How [_load_issued_records] reads a line with one colon: the student id
    is trimmed, the text after the colon is cut at the commas and the
    pieces are taken as they are. *)
Lemma issued_line_written records s after :
  Str.strip s = s -> free_of ":" s = true ->
  free_of ":" after = true -> Str.rstrip after = after ->
  issued_line records ((s ++ String ":" after) ++ String Str.LF "")%string
  = <[s := list_to_set (Str.split "," after)]> records.
Proof.
  intros Hs Hs' Ha Ha'. destruct (strip_fixed s Hs) as [Hsl _]. unfold issued_line.
  assert (E : Str.strip ((s ++ String ":" after) ++ String Str.LF "")%string
              = (s ++ String ":" after)%string).
  { unfold Str.strip. rewrite (append_assoc s), append_cons.
    rewrite lstrip_before by done. rewrite rstrip_after by done.
    by rewrite rstrip_line_feed, Ha'. }
  rewrite E, split_app by done. rewrite split_free by done. by rewrite Hs.
Qed.

Lemma issued_line_skip records line :
  count_char ":" (Str.strip line) ≠ 1 -> issued_line records line = records.
Proof.
  unfold issued_line. pose proof (split_length ":" (Str.strip line)) as Hlen.
  destruct (Str.split ":" (Str.strip line)) as [|p0 [|p1 [|p2 ps]]];
    cbn in Hlen; intros Hc; try done; lia.
Qed.

(** X15.  [_load_issued_records] takes a line when, trimmed, it has exactly
    one colon, and then sets the entry of one student to a set that is
    never empty (a line that ends at the colon gives the set of the empty
    id); every other line is skipped. *)
Theorem issued_line_accepts records line :
  (count_char ":" (Str.strip line) ≠ 1 -> issued_line records line = records) /\
  (count_char ":" (Str.strip line) = 1 ->
   exists student_id X,
     issued_line records line = <[student_id := X]> records /\ X ≠ ∅ /\
     Str.strip student_id = student_id /\ free_of ":" student_id = true).
Proof.
  split; [apply issued_line_skip|].
  unfold issued_line. pose proof (split_length ":" (Str.strip line)) as Hlen.
  pose proof (split_pieces_free ":" ":" (Str.strip line)) as Hfree.
  destruct (Str.split ":" (Str.strip line)) as [|p0 [|p1 [|p2 ps]]];
    cbn in Hlen; intros Hc; try done; try lia.
  apply Forall_cons in Hfree as [[H0 _] _].
  eexists _, _. split; [done|]. split_and!.
  - destruct (split_cons "," p1) as [piece [pieces ->]]. cbn.
    intros H. apply (f_equal (fun Y : gset string => bool_decide (piece ∈ Y))) in H.
    rewrite bool_decide_eq_true_2 in H by (apply elem_of_union; left; by apply elem_of_singleton).
    by rewrite bool_decide_eq_false_2 in H by apply not_elem_of_empty.
  - apply strip_strip.
  - by apply free_of_strip.
Qed.

(** X16.  The last line of a student decides: whatever lines come before,
    after a line [student:ids] the student's set is the set of the ids
    between the commas of that line.  A file written by hand without the
    blank after the colon is thus read exactly. *)
Theorem last_line_decides (before : list string) student_id (ids : list string) :
  Forall (fun line => free_of Str.LF line = true /\ free_of Str.CR line = true) before ->
  Str.strip student_id = student_id ->
  free_of ":" student_id = true ->
  free_of Str.LF student_id = true -> free_of Str.CR student_id = true ->
  ids ≠ [] ->
  Forall (fun b => record_id b /\ b ≠ EmptyString) ids ->
  parse_issued_records
    (Str.join "" (map (fun line => line ++ String Str.LF "")%string
                      (before ++ [(student_id ++ String ":" (Str.join "," ids))%string])))
    !! student_id
  = Some (list_to_set ids).
Proof.
  intros Hbefore Hs Hs1 Hs2 Hs3 Hne Hids. unfold parse_issued_records.
  assert (Hj : forall c, c ≠ ","%char ->
             (forall b, record_id b -> free_of c b = true) ->
             free_of c (Str.join "," ids) = true).
  { intros c Hc Hfree. apply free_of_join.
    - change (negb (Ascii.eqb "," c) && true = true).
      destruct (Ascii.eqb_spec "," c) as [E|_]; [by destruct Hc|reflexivity].
    - eapply Forall_impl; [exact Hids|]. intros b [Hb _]. by apply Hfree. }
  rewrite lines_join.
  - rewrite map_app, fold_left_app. cbn [map fold_left].
    destruct (rstrip_join ids Hne) as [Hr _].
    { eapply Forall_impl; [exact Hids|]. intros b [[Hb _] Hb'].
      split; [by destruct (strip_fixed b Hb)|done]. }
    rewrite issued_line_written; try done.
    + rewrite lookup_insert_eq. f_equal. f_equal. apply (split_join ","); [done|].
      eapply Forall_impl; [exact Hids|]. by intros b [[_ [_ [Hb _]]] _].
    + apply Hj; [done|]. by intros b [_ [Hb _]].
  - apply Forall_app. split; [done|]. constructor; [|constructor].
    rewrite !free_of_app. cbn. rewrite Hs2, Hs3. cbn. split.
    + apply Hj; [done|]. by intros b [_ [_ [_ [Hb _]]]].
    + apply Hj; [done|]. by intros b [_ [_ [_ [_ Hb]]]].
Qed.

Lemma last_line_decides_witness :
  parse_issued_records
    ("S101:B900" ++ String Str.LF ("junk" ++ String Str.LF ("S101:B101,B102" ++ String Str.LF "")))
    !! "S101"
  = Some (list_to_set ["B101"; "B102"]).
Proof.
  refine (eq_trans _ (last_line_decides ["S101:B900"; "junk"] "S101" ["B101"; "B102"]
                        _ _ _ _ _ _ _)); try reflexivity; try done.
  - repeat constructor.
  - repeat constructor; done.
Defined.

Lemma append_record s ids z :
  (s ++ ": " ++ ids ++ z)%string = ((s ++ ": " ++ ids) ++ z)%string.
Proof. rewrite (append_assoc s). f_equal. Qed.

(** What [_load_issued_records] makes of the line [_save_issued_records]
    writes for a student whose ids it takes in the order [ids]. *)
Lemma issued_line_entry records s (ids : list string) :
  record_id s -> Forall (fun b => record_id b /\ b ≠ EmptyString) ids ->
  issued_line records
    ((s ++ ": " ++ Str.join "," ids) ++ String Str.LF "")%string
  = <[s := list_to_set (read_back ids)]> records.
Proof.
  intros [Hs [Hs1 _]] Hel.
  destruct ids as [|b ids].
  - cbn [Str.join read_back]. destruct (strip_fixed s Hs) as [Hsl _]. unfold issued_line.
    assert (Es : Str.strip ((s ++ ": " ++ "") ++ String Str.LF "")%string
                 = (s ++ String ":" "")%string).
    { unfold Str.strip. rewrite (append_assoc s), !append_cons, !append_nil_l.
      rewrite lstrip_before by done. by rewrite rstrip_after by done. }
    rewrite Es, split_app by done. cbn. by rewrite Hs.
  - destruct (rstrip_join (b :: ids) ltac:(done)) as [Hr Hr'].
    { eapply Forall_impl; [exact Hel|]. intros b' [[Hb _] Hb'].
      split; [by destruct (strip_fixed b' Hb)|done]. }
    assert (Hcolon : free_of ":" (Str.join "," (b :: ids)) = true).
    { apply free_of_join; [done|]. eapply Forall_impl; [exact Hel|].
      by intros b' [[_ [Hb _]] _]. }
    rewrite !append_cons, !append_nil_l.
    rewrite issued_line_written; try done.
    + f_equal. f_equal. rewrite split_cons_other by done.
      rewrite (split_join ","); [done|done|].
      eapply Forall_impl; [exact Hel|]. by intros b' [[_ [_ [Hb _]]] _].
    + cbn [Str.rstrip]. rewrite Hr.
      destruct (Str.join "," (b :: ids)); [by destruct Hr'|done].
Qed.

Lemma fold_left_insert {A} (f : A -> gset string)
    (entries : list (string * A)) (acc : gmap string (gset string)) :
  NoDup entries.*1 ->
  fold_left (fun r e => <[e.1 := f e.2]> r) entries acc
  = list_to_map ((fun e => (e.1, f e.2)) <$> entries) ∪ acc.
Proof.
  revert acc. induction entries as [|[s X] entries IH]; intros acc Hnd.
  - cbn. by rewrite map_empty_union.
  - cbn in *. apply NoDup_cons in Hnd as [Hs Hnd]. rewrite IH by done.
    apply map_eq. intros k.
    rewrite !lookup_union. destruct (decide (k = s)) as [->|Hk].
    + rewrite !lookup_insert_eq.
      rewrite (not_elem_of_list_to_map_1 _ s); [cbn; by destruct (acc !! s)|].
      by rewrite fst_fmap_entries.
    + by rewrite !lookup_insert_ne.
Qed.

(** An enumeration has one entry for a student. *)
Lemma enumerates_entry (entries : list (string * list string)) records s ids ids' :
  enumerates entries records ->
  (s, ids) ∈ entries -> (s, ids') ∈ entries -> ids = ids'.
Proof.
  intros [Hnd _] H H'.
  apply (elem_of_list_to_map_1 (M := gmap string)) in H; [|done].
  apply (elem_of_list_to_map_1 (M := gmap string)) in H'; [|done].
  rewrite H in H'. by injection H'.
Qed.

(** The text for an enumeration, read by [_load_issued_records]. *)
Lemma parse_record_lines (entries : list (string * list string)) :
  NoDup entries.*1 ->
  Forall (fun e => record_id e.1 /\
                   Forall (fun b => record_id b /\ b ≠ EmptyString) e.2) entries ->
  parse_issued_records (record_lines entries) = records_read_back entries.
Proof.
  intros Hnd Hentries. unfold record_lines, parse_issued_records, records_read_back.
  assert (Hmap : map (fun '(student_id, book_ids) =>
                        (student_id ++ ": " ++ Str.join "," book_ids
                         ++ String Str.LF "")%string) entries
                 = map (fun line => line ++ String Str.LF "")%string
                     (map (fun e : string * list string =>
                             (e.1 ++ ": " ++ Str.join "," e.2)%string)
                          entries)).
  { rewrite map_map. apply map_ext. intros [s ids]. apply append_record. }
  rewrite Hmap, lines_join; clear Hmap.
  - assert (H : forall acc,
              fold_left issued_line
                (map (fun line => line ++ String Str.LF "")%string
                   (map (fun e : string * list string =>
                           (e.1 ++ ": " ++ Str.join "," e.2)%string)
                        entries))
                acc
              = fold_left (fun r e => <[e.1 := list_to_set (read_back e.2)]> r)
                  entries acc).
    { clear Hnd.
      induction Hentries as [|[s ids] entries [Hs Hids] _ IH]; intros acc; [done|].
      cbn [map fold_left fst snd]. by rewrite issued_line_entry, IH. }
    rewrite H, (fold_left_insert (fun ids => list_to_set (read_back ids))) by done.
    by rewrite map_union_empty.
  - apply Forall_map. eapply Forall_impl; [exact Hentries|].
    intros [s ids] [[_ [_ [_ [Hs1 Hs2]]]] Hids]. cbn [fst snd] in *.
    assert (Hj : forall c, c = Str.LF \/ c = Str.CR ->
               free_of c (Str.join "," ids) = true).
    { intros c Hc. apply free_of_join; [by destruct Hc as [-> | ->]|].
      eapply Forall_impl; [exact Hids|].
      intros b [[_ [_ [_ [H1 H2]]]] _]. by destruct Hc as [-> | ->]. }
    rewrite !free_of_app, Hs1, Hs2, !Hj by auto. done.
Qed.

(** X17.  What a new run reads of the issued records is not what was
    saved.  Take the records with ids that are trimmed, non-empty, on one
    line and without the separators, and the file written for them,
    whatever the order in which the students and the ids of each come.
    Every student has an entry again, and the entry has the ids as they
    were written, but for the first of them on the line, which keeps the
    blank written after the colon (a student saved with an empty set comes
    back with the empty id).  So, when no book is held twice, the book
    written first on a line is held by nobody after a restart: it is
    listed as available and can be issued again. *)
Theorem reload_issued_records records (entries : list (string * list string)) :
  enumerates entries records ->
  (forall s X, records !! s = Some X ->
               record_id s /\ forall b, b ∈ X -> record_id b /\ b ≠ EmptyString) ->
  parse_issued_records (record_lines entries) = records_read_back entries /\
  (forall s X, records !! s = Some X ->
     exists ids, (s, ids) ∈ entries /\ list_to_set ids = X /\
       parse_issued_records (record_lines entries) !! s
       = Some (list_to_set (read_back ids))) /\
  (single_holder records ->
   forall s b others, (s, b :: others) ∈ entries ->
     ~ held (parse_issued_records (record_lines entries)) b).
Proof.
  intros Henum Hgood. pose proof Henum as [Hnd [Hids Hrec]].
  assert (Hentry : forall s ids, (s, ids) ∈ entries ->
            record_id s /\ forall b, b ∈ ids -> record_id b /\ b ≠ EmptyString).
  { intros s ids Hin.
    destruct (Hgood s (list_to_set ids)) as [Hs Hb]; [apply Hrec; by exists ids|].
    split; [done|]. intros b Hbin. apply Hb. by apply elem_of_list_to_set. }
  assert (Heq : parse_issued_records (record_lines entries) = records_read_back entries).
  { apply parse_record_lines; [done|]. apply Forall_forall. intros [s ids] Hin.
    destruct (Hentry s ids Hin) as [Hs Hb]. split; [done|].
    apply Forall_forall. exact Hb. }
  assert (Hlook : forall s ids, (s, ids) ∈ entries ->
            records_read_back entries !! s = Some (list_to_set (read_back ids))).
  { intros s ids Hin. unfold records_read_back.
    apply (elem_of_list_to_map_1 (M := gmap string)).
    - by rewrite (fst_fmap_entries
                    (fun ids : list string => list_to_set (read_back ids) : gset string)).
    - apply list_elem_of_fmap. by exists (s, ids). }
  split_and!.
  - exact Heq.
  - intros s X HX. apply Hrec in HX as [ids [Hin HX]]. exists ids.
    split_and!; [done..|]. rewrite Heq. by apply Hlook.
  - intros Hsingle s b others Hin [s' [Y [HY Hb]]].
    rewrite Heq in HY. unfold records_read_back in HY.
    apply (elem_of_list_to_map_2 (M := gmap string)) in HY.
    apply list_elem_of_fmap in HY as [[s0 ids'] [[= -> ->] Hin']]. cbn [fst snd] in *.
    destruct (Hentry s (b :: others) Hin) as [_ HbX].
    destruct (HbX b ltac:(by left)) as [[Hstrip _] Hne].
    destruct ids' as [|b0 bs]; cbn [read_back] in Hb.
    + apply elem_of_list_to_set, list_elem_of_singleton in Hb. done.
    + apply elem_of_list_to_set, elem_of_cons in Hb as [Hb|Hb].
      * subst b. destruct (strip_fixed _ Hstrip) as [Hl _].
        change (Str.lstrip b0 = String " " b0) in Hl.
        pose proof (lstrip_length b0) as Hlen. rewrite Hl in Hlen. cbn in Hlen. lia.
      * assert (s0 = s) as ->.
        { apply (Hsingle s0 s (list_to_set (b0 :: bs)) (list_to_set (b :: others)) b).
          - apply Hrec. by eexists.
          - apply Hrec. by eexists.
          - apply elem_of_list_to_set. by right.
          - apply elem_of_list_to_set. by left. }
        pose proof (enumerates_entry _ _ _ _ _ Henum Hin Hin') as [= <- <-].
        apply (Forall_forall (fun e : string * list string => NoDup e.2) entries) in Hin;
          [|done].
        cbn in Hin. apply NoDup_cons in Hin as [Hin _]. by apply Hin.
Qed.

Lemma reload_issued_records_witness :
  let records : gmap string (gset string) := {["S101" := {["B101"; "B102"]}]} in
  let entries := [("S101", ["B102"; "B101"])] in
  parse_issued_records (record_lines entries) !! "S101" = Some {[" B102"; "B101"]} /\
  ~ held (parse_issued_records (record_lines entries)) "B102".
Proof.
  intros records entries.
  assert (Henum : enumerates entries records).
  { split_and!.
    - cbn. apply NoDup_singleton.
    - apply Forall_singleton. cbn. apply NoDup_cons.
      split; [by intros ?%list_elem_of_singleton|apply NoDup_singleton].
    - intros s X. unfold records, entries. rewrite lookup_singleton_Some. split.
      + intros [<- <-]. exists ["B102"; "B101"]. split; [by left|]. reflexivity.
      + intros [ids [Hin <-]]. apply list_elem_of_singleton in Hin as [= -> ->].
        split; [done|]. reflexivity. }
  assert (Hgood : forall s X, records !! s = Some X ->
            record_id s /\ forall b, b ∈ X -> record_id b /\ b ≠ EmptyString).
  { intros s X HX. unfold records in HX.
    apply lookup_singleton_Some in HX as [<- <-].
    split; [by repeat split|]. intros b Hb.
    apply elem_of_union in Hb as [Hb|Hb]; apply elem_of_singleton in Hb as ->;
      by repeat split. }
  destruct (reload_issued_records records entries Henum Hgood) as [Heq [_ Hfree]]. split.
  - rewrite Heq. unfold records_read_back, entries. cbn.
    rewrite lookup_insert_eq. f_equal.
  - apply (Hfree) with (s := "S101") (others := ["B101"]).
    + intros s1 s2 X1 X2 b H1 H2 _ _. unfold records in H1, H2.
      apply lookup_singleton_Some in H1 as [<- _].
      by apply lookup_singleton_Some in H2 as [<- _].
    + by left.
Defined.

End RecordsFile.


(** ** The main program *)

Section Main.

Implicit Types (l : Library) (d : Disk) (w : World) (s : Session).

Lemma input_ends prompt w :
  (result (input prompt) w = Raised EOFError /\ stdin (exec (input prompt) w) = [] /\
   stdin w = []) \/
  (exists line, result (input prompt) w = Returned line /\
   S (length (stdin (exec (input prompt) w))) = length (stdin w)).
Proof.
  destruct w as [l d [|line kb] out]; [by left|]. right. by exists line.
Qed.

Lemma input_frame prompt w :
  self (exec (input prompt) w) = self w /\ disk (exec (input prompt) w) = disk w.
Proof. by destruct w as [l d [|line kb] out]. Qed.

(** One induction for what is shown of [main_loop]: with more fuel than
    pending lines it ends, after the exit line or by [EOFError] on an
    empty input, and a property of the library and the disk that the
    features keep holds at the end. *)
Lemma main_loop_ends (Q : Library -> Disk -> Prop) :
  (forall w, Q (self w) (disk w) -> Q (self (exec add_book w)) (disk (exec add_book w))) ->
  (forall w, Q (self w) (disk w) ->
             Q (self (exec issue_book w)) (disk (exec issue_book w))) ->
  (forall w, Q (self w) (disk w) ->
             Q (self (exec return_book w)) (disk (exec return_book w))) ->
  forall fuel s,
    length (stdin (world s)) < fuel -> Q (self (world s)) (disk (world s)) ->
    exists r s',
      main_loop fuel s = Some (r, s') /\
      Q (self (world s')) (disk (world s')) /\
      match r with
      | Returned _ => exists before, screen s' = before ++ [MainExiting]
      | Raised _ => stdin (world s') = []
      end.
Proof.
  intros Hadd Hissue Hreturn.
  induction fuel as [|fuel IH]; intros s Hlen HQ; [lia|].
  cbn [main_loop]. unfold call at 1. cbn [world show].
  destruct (input_frame "Enter your choice (1-5): " (world s)) as [Hself Hdisk].
  destruct (input_ends "Enter your choice (1-5): " (world s))
    as [[Hr [Hnil _]]|[line [Hr Hin]]]; rewrite Hr.
  { eexists _, _. split; [done|]. cbn. by rewrite Hself, Hdisk. }
  set (s1 := {| world := exec (input "Enter your choice (1-5): ") (world s) |}).
  assert (HQ1 : Q (self (world s1)) (disk (world s1))) by (cbn; by rewrite Hself, Hdisk).
  assert (Hlen1 : length (stdin (world s1)) < fuel) by (cbn; lia).
  assert (Hop : forall m : M unit,
            (forall w, Q (self w) (disk w) -> Q (self (exec m w)) (disk (exec m w))) ->
            (forall w, (result m w = Raised EOFError /\ stdin (exec m w) = []) \/
                       (result m w = Returned () /\
                        length (stdin (exec m w)) <= length (stdin w))) ->
            exists r s',
              match call m s1 with
              | (Returned _, s') => main_loop fuel s'
              | (Raised e, s') => Some (Raised e, s')
              end = Some (r, s') /\
              Q (self (world s')) (disk (world s')) /\
              match r with
              | Returned _ => exists before, screen s' = before ++ [MainExiting]
              | Raised _ => stdin (world s') = []
              end).
  { intros m Hm Hends. unfold call. destruct (Hends (world s1)) as [[-> Hnil]|[-> Hle]].
    - eexists _, _. split; [done|]. split; [by apply Hm|done].
    - apply IH; cbn [world]; [lia|by apply Hm]. }
  repeat case_decide.
  - apply Hop; [done|]. intros w. destruct (add_book_ends w) as [[? [_ [_ ?]]]|[? [? _]]];
      [by left|right; split; [done|lia]].
  - apply Hop; [done|]. intros w. destruct (issue_book_ends w) as [[? [_ [_ ?]]]|[? [? _]]];
      [by left|right; split; [done|lia]].
  - apply Hop; [done|]. intros w. destruct (return_book_ends w) as [[? [_ [_ ?]]]|[? [? _]]];
      [by left|right; split; [done|lia]].
  - apply Hop.
    + intros w. destruct (display_ends w) as [_ [-> [-> _]]]. done.
    + intros w. right. destruct (display_ends w) as [? [_ [_ ->]]]. done.
  - eexists _, _. split; [done|]. split; [done|]. cbn. by eexists.
  - apply IH; done.
Qed.



Lemma main_start_world d keyboard : world (main_start d keyboard) = start d keyboard.
Proof. done. Qed.

Lemma start_stdin d keyboard : stdin (start d keyboard) = keyboard.
Proof.
  unfold start, exec, __init__, _load_catalog, _load_issued_records. unfold_M. cbn.
  destruct (files d !! BOOK_CATALOG_FILE) as [c|] eqn:Hc;
    destruct (files d !! ISSUED_RECORDS_FILE) as [r|] eqn:Hr;
    destruct (io_error d) eqn:Hio; cbn;
    repeat (rewrite ?Hc, ?Hr, ?Hio; cbn); done.
Qed.

Lemma start_disk d keyboard : disk (start d keyboard) = d.
Proof.
  unfold start, exec, __init__, _load_catalog, _load_issued_records. unfold_M. cbn.
  destruct (files d !! BOOK_CATALOG_FILE) as [c|] eqn:Hc;
    destruct (files d !! ISSUED_RECORDS_FILE) as [r|] eqn:Hr;
    destruct (io_error d) eqn:Hio; cbn;
    repeat (rewrite ?Hc, ?Hr, ?Hio; cbn); done.
Qed.

Lemma start_no_empty_entry d keyboard :
  no_empty_entry (issued_records (self (start d keyboard))).
Proof.
  rewrite start_self. cbn.
  destruct (files d !! ISSUED_RECORDS_FILE) as [content|];
    [destruct (io_error d)|]; try apply no_empty_entry_parse;
    intros s X; by rewrite lookup_empty.
Qed.

(** X18.  Building the library reads no input and leaves the disk as it
    is.  When neither file is there, as on the first run, the library is
    empty and nothing is printed; when the files cannot be opened the
    library is empty as well and one loading error is printed for each
    file that is there. *)
Theorem start_edges d keyboard :
  stdin (start d keyboard) = keyboard /\
  disk (start d keyboard) = d /\
  (files d !! BOOK_CATALOG_FILE = None -> files d !! ISSUED_RECORDS_FILE = None ->
   self (start d keyboard) = empty_library /\ stdout (start d keyboard) = []) /\
  (io_error d = true ->
   self (start d keyboard) = empty_library /\
   stdout (start d keyboard) =
     match files d !! BOOK_CATALOG_FILE with
     | Some _ => [MsgErrorLoading BOOK_CATALOG_FILE]
     | None => []
     end
     ++ match files d !! ISSUED_RECORDS_FILE with
        | Some _ => [MsgErrorLoading ISSUED_RECORDS_FILE]
        | None => []
        end).
Proof.
  split_and!.
  - apply start_stdin.
  - apply start_disk.
  - intros Hc Hr. split.
    + rewrite start_self. cbn. by rewrite Hc, Hr.
    + unfold start, exec, __init__, _load_catalog, _load_issued_records.
      unfold_M. cbn. repeat (rewrite ?Hc, ?Hr; cbn). done.
  - intros H. split.
    + rewrite start_self. cbn. rewrite H.
      by destruct (files d !! BOOK_CATALOG_FILE), (files d !! ISSUED_RECORDS_FILE).
    + unfold start, exec, __init__, _load_catalog, _load_issued_records.
      unfold_M. cbn.
      destruct (files d !! BOOK_CATALOG_FILE) as [c|] eqn:Hc;
        destruct (files d !! ISSUED_RECORDS_FILE) as [r|] eqn:Hr; cbn;
        repeat (rewrite ?Hc, ?Hr, ?H; cbn); done.
Qed.


(** X20.  Whatever is typed, when [main] ends [available_book_ids] holds
    the ids of the catalog, no student has an empty set, and the disk is
    as it was apart from the two files of the library. *)
Theorem main_keeps d keyboard :
  match main d keyboard with
  | Some (_, s) =>
      mirrors (self (world s)) /\
      no_empty_entry (issued_records (self (world s))) /\
      io_error (disk (world s)) = io_error d /\
      forall path, path ≠ BOOK_CATALOG_FILE -> path ≠ ISSUED_RECORDS_FILE ->
        files (disk (world s)) !! path = files d !! path
  | None => False
  end.
Proof.
  set (Q := fun l dk =>
              mirrors l /\ no_empty_entry (issued_records l) /\
              io_error dk = io_error d /\
              forall path, path ≠ BOOK_CATALOG_FILE -> path ≠ ISSUED_RECORDS_FILE ->
                files dk !! path = files d !! path).
  destruct (main_loop_ends Q) with (fuel := S (length keyboard))
    (s := main_start d keyboard) as [r [s [Hrun [HQ _]]]].
  - intros w [Hm [Hne [Hio Hfiles]]]. split_and!.
    + by apply mirrors_add.
    + by destruct (add_book_self w) as [->|[book [_ ->]]].
    + destruct (add_book_ends w) as [[_ [_ [-> _]]]|[_ [_ [-> _]]]]; done.
    + intros path H1 H2.
      destruct (add_book_ends w) as [[_ [_ [-> _]]]|[_ [_ [_ H]]]]; [by apply Hfiles|].
      rewrite H by done. by apply Hfiles.
  - intros w [Hm [Hne [Hio Hfiles]]]. split_and!.
    + by apply mirrors_issue.
    + destruct (issue_book_self w) as [->|[s [b [_ [_ ->]]]]]; [done|].
      by apply no_empty_entry_issue.
    + destruct (issue_book_ends w) as [[_ [_ [-> _]]]|[_ [_ [-> _]]]]; done.
    + intros path H1 H2.
      destruct (issue_book_ends w) as [[_ [_ [-> _]]]|[_ [_ [_ H]]]]; [by apply Hfiles|].
      rewrite H by done. by apply Hfiles.
  - intros w [Hm [Hne [Hio Hfiles]]]. split_and!.
    + by apply mirrors_return.
    + destruct (return_book_self w) as [->|[s [b [X [_ [_ ->]]]]]]; [done|].
      by apply no_empty_entry_return.
    + destruct (return_book_ends w) as [[_ [_ [-> _]]]|[_ [_ [-> _]]]]; done.
    + intros path H1 H2.
      destruct (return_book_ends w) as [[_ [_ [-> _]]]|[_ [_ [_ H]]]]; [by apply Hfiles|].
      rewrite H by done. by apply Hfiles.
  - rewrite main_start_world, start_stdin. lia.
  - rewrite main_start_world, start_disk. unfold Q. split_and!; try done.
    + unfold mirrors. by rewrite start_self.
    + apply start_no_empty_entry.
  - unfold main. by rewrite Hrun.
Qed.

End Main.
